(** * uberpy: the request / retry / backoff core of [uberpy.core.base]

    A shallow embedding of [Base._request], [Base._wrapper] and
    [Base.get_access_token] together with the library functions they call
    ([str.strip], [urllib.parse.quote], [float], [time.sleep],
    [random.uniform], [requests.Response.raise_for_status]), and the
    properties of the retry engine proved over that embedding.

    Conventions.
    - A Python [int] is a [Z].
    - A Python [float] is a [pyfloat]: a rational, or one of the three
      special values.  Finite floats are idealised as exact rationals, so
      binary64 rounding and range are not modelled.
    - A Python [str] is a [string].  For header text every character is one
      Latin-1 code point, which is how [requests] decodes header values;
      for path segments the [string] holds the UTF-8 encoding of the text,
      which is what [quote] works on.
    - A [dict] of headers is a [gmap string string] living in a heap of
      objects, so that identity and mutation can be stated.
    - The network and the random generator are oracles carried by the
      [World]; every network call, random draw and completed sleep is
      appended to the world's [trace]. *)

From Stdlib Require Import ZArith QArith Qpower Lqa String Ascii List Lia.
From Stdlib Require Import DecimalString DecimalPos.
From stdpp Require Import gmap strings list.

(** ** Python strings *)

Module PyStr.

Definition code (c : ascii) : N := N_of_ascii c.

Definition in_range (lo hi : N) (c : ascii) : bool :=
  ((lo <=? code c) && (code c <=? hi))%N.

Definition is_digit (c : ascii) : bool := in_range 48 57 c.

Definition is_upper (c : ascii) : bool := in_range 65 90 c.

Definition is_alpha (c : ascii) : bool := in_range 65 90 c || in_range 97 122 c.

(** ASCII lowering of one character. *)
Definition lower_char (c : ascii) : ascii :=
  if is_upper c then ascii_of_N (code c + 32) else c.

(** [str.lower] on ASCII letters. *)
Fixpoint lower (s : string) : string :=
  match s with
  | EmptyString => EmptyString
  | String c s' => String (lower_char c) (lower s')
  end.

Fixpoint mem (c : ascii) (chars : string) : bool :=
  match chars with
  | EmptyString => false
  | String d chars' => if Ascii.eqb c d then true else mem c chars'
  end.

(** [s.lstrip(chars)]: drop the leading characters that occur in [chars]. *)
Fixpoint lstrip (chars : string) (s : string) : string :=
  match s with
  | EmptyString => EmptyString
  | String c s' => if mem c chars then lstrip chars s' else s
  end.

(** [s.rstrip(chars)]. *)
Definition rstrip (chars : string) (s : string) : string :=
  String.rev (lstrip chars (String.rev s)).

(** [s.strip(chars)]. *)
Definition strip (chars : string) (s : string) : string :=
  rstrip chars (lstrip chars s).

(** [sep.join(l)]. *)
Fixpoint join (sep : string) (l : list string) : string :=
  match l with
  | [] => EmptyString
  | [x] => x
  | x :: l' => x +:+ sep +:+ join sep l'
  end.

(** [str(n)] for an [int]. *)
Definition of_int (n : Z) : string := NilZero.string_of_int (Z.to_int n).

(** [not s] *)
Definition is_empty (s : string) : bool :=
  match s with EmptyString => true | _ => false end.

End PyStr.

(** ** [urllib.parse.quote] *)

Module UrlQuote.
Import PyStr.

(** The characters [quote] never escapes: letters, digits and [_.-~]. *)
Definition always_safe (c : ascii) : bool :=
  is_alpha c || is_digit c || mem c "_.-~".

Definition hex_digit (n : N) : ascii :=
  if (n <? 10)%N then ascii_of_N (48 + n) else ascii_of_N (55 + n).

(** ["%XX"] with upper-case hexadecimal digits. *)
Definition percent (c : ascii) : string :=
  String "%" (String (hex_digit (code c / 16)) (String (hex_digit (code c mod 16)) EmptyString)).

(** [quote(s, safe=safe)], on the UTF-8 bytes of [s]. *)
Fixpoint quote (s : string) (safe : string) : string :=
  match s with
  | EmptyString => EmptyString
  | String c s' =>
      (if always_safe c || mem c safe then String c EmptyString else percent c)
        +:+ quote s' safe
  end.

End UrlQuote.

(** ** Python floats and [float(str)] *)

Inductive pyfloat :=
| Finite (q : Q)
| PosInf
| NegInf
| NaN.

Module PyFloat.
Import PyStr.

(** Whitespace that [float] strips: the ASCII blanks, and the two Latin-1
    characters for which [str.isspace] holds (NEL and NBSP). *)
Definition is_space (c : ascii) : bool :=
  in_range 9 13 c || N.eqb (code c) 32 || N.eqb (code c) 133 || N.eqb (code c) 160.

Fixpoint lstrip_space (s : list ascii) : list ascii :=
  match s with
  | c :: s' => if is_space c then lstrip_space s' else s
  | [] => []
  end.

Definition strip_space (s : list ascii) : list ascii :=
  rev (lstrip_space (rev (lstrip_space s))).

Definition is_underscore (c : ascii) : bool := Ascii.eqb c "_".

(** Underscores are legal only between two digits; they are removed before
    the number is read.  [prev] is the previous character, if any. *)
Fixpoint drop_underscores (prev : option ascii) (s : list ascii) : option (list ascii) :=
  match s with
  | [] =>
      match prev with
      | Some p => if is_underscore p then None else Some []
      | None => Some []
      end
  | c :: s' =>
      if is_underscore c then
        match prev with
        | Some p => if is_digit p then drop_underscores (Some c) s' else None
        | None => None
        end
      else
        match prev with
        | Some p =>
            if is_underscore p && negb (is_digit c) then None
            else option_map (cons c) (drop_underscores (Some c) s')
        | None => option_map (cons c) (drop_underscores (Some c) s')
        end
  end.

(** An optional sign; [true] means negative. *)
Definition take_sign (s : list ascii) : bool * list ascii :=
  match s with
  | c :: s' =>
      if Ascii.eqb c "-" then (true, s')
      else if Ascii.eqb c "+" then (false, s')
      else (false, s)
  | [] => (false, [])
  end.

(** The longest prefix of digits, and what follows it. *)
Fixpoint take_digits (s : list ascii) : list ascii * list ascii :=
  match s with
  | c :: s' =>
      if is_digit c then let '(ds, r) := take_digits s' in (c :: ds, r) else ([], s)
  | [] => ([], [])
  end.

Definition digit_value (c : ascii) : Z := Z.of_N (code c) - 48.

Definition digits_value (ds : list ascii) : Z :=
  fold_left (fun acc c => 10 * acc + digit_value c)%Z ds 0%Z.

(** [e] or [E], an optional sign and at least one digit, up to the end of
    the text; no exponent at all counts as exponent [0]. *)
Definition take_exponent (s : list ascii) : option Z :=
  match s with
  | [] => Some 0%Z
  | c :: s' =>
      if Ascii.eqb (lower_char c) "e" then
        let '(neg, s1) := take_sign s' in
        match take_digits s1 with
        | (d :: ds, []) =>
            Some (if neg then - digits_value (d :: ds) else digits_value (d :: ds))%Z
        | _ => None
        end
      else None
  end.

Definition ten : Q := 10 # 1.

(** [digits [. digits] [exponent]] with a digit on at least one side of
    the point. *)
Definition decimal (s : list ascii) : option Q :=
  let '(ip, s1) := take_digits s in
  let '(fp, s2) :=
    match s1 with
    | c :: s1' => if Ascii.eqb c "." then take_digits s1' else ([], s1)
    | [] => ([], [])
    end in
  match ip ++ fp with
  | [] => None
  | ds =>
      match take_exponent s2 with
      | Some e =>
          Some (Qred (inject_Z (digits_value ds) * Qpower ten (e - Z.of_nat (List.length fp))))
      | None => None
      end
  end.

Definition lower_chars (s : list ascii) : list ascii := map lower_char s.

Definition is_inf (s : list ascii) : bool :=
  let l := string_of_list_ascii (lower_chars s) in
  String.eqb l "inf" || String.eqb l "infinity".

Definition is_nan (s : list ascii) : bool :=
  String.eqb (string_of_list_ascii (lower_chars s)) "nan".

(** [float(s)] for a [str]; [None] stands for [ValueError]. *)
Definition py_float (s : string) : option pyfloat :=
  match drop_underscores None (strip_space (list_ascii_of_string s)) with
  | None => None
  | Some t =>
      let '(neg, body) := take_sign t in
      if is_inf body then Some (if neg then NegInf else PosInf)
      else if is_nan body then Some NaN
      else
        match decimal body with
        | Some q => Some (Finite (if neg then Qred (- q) else q))
        | None => None
        end
  end.

(** [d < 0], as Python evaluates it ([nan] compares false). *)
Definition is_negative (d : pyfloat) : bool :=
  match d with
  | Finite q => negb (Qle_bool 0 q)
  | NegInf => true
  | PosInf | NaN => false
  end.

(** [0 <= d]. *)
Definition nonnegative (d : pyfloat) : Prop :=
  match d with
  | Finite q => (0 <= q)%Q
  | PosInf => True
  | NegInf | NaN => False
  end.

End PyFloat.

(** ** Data model *)

Set Warnings "-register-all".

(** A decoded JSON document. *)
Inductive JSON :=
| JNull
| JBool (b : bool)
| JInt (n : Z)
| JFloat (x : pyfloat)
| JStr (s : string)
| JList (items : list JSON)
| JDict (items : list (string * JSON)).

(** [type Headers = dict], [type Params = dict]. *)
Abbreviation Headers := (gmap string string).
Abbreviation Params := (gmap string string).

(** [type Method = Literal['GET', 'PUT', 'POST', 'PATCH', 'DELETE']]. *)
Inductive Method := GET | PUT | POST | PATCH | DELETE.

(** [type URL = str | int]. *)
Inductive URL :=
| UStr (s : string)
| UInt (n : Z).

(** [type Body = dict | BaseModel].  A pydantic model is represented by
    what [model_dump(mode='json', exclude_none=True)] gives for it. *)
Inductive Body :=
| Dict (d : JSON)
| BaseModel (dumped : JSON).

(** A [requests.Response]: [headers] is the store of the case-insensitive
    dictionary, keyed by lower-cased names; [json] is what [.json()] gives,
    [None] when decoding the body fails. *)
Record Response := {
  status_code : Z;
  headers : gmap string string;
  content : string;
  json : option JSON;
}.

(** The exceptions that occur.  [HTTPError], [ConnectionError] and
    [Timeout] are the classes of [requests], each with its subclasses;
    [OtherError] is any exception of a class not listed here. *)
Inductive PyExc :=
| HTTPError (response : Response)
| ConnectionError (msg : string)
| Timeout (msg : string)
| JSONDecodeError
| KeyError (key : string)
| TypeError
| ValueError
| OverflowError
| AssertionError
| OtherError (name : string).

(** What one call to the transport is given. *)
Record Request := {
  rq_method : Method;
  rq_url : string;
  rq_json : option JSON;
  rq_data : option (list (string * string));
  rq_params : option Params;
  rq_headers : option Headers;
  rq_timeout : Q;
}.

(** What one call to the transport gives back. *)
Inductive NetResult :=
| NetResponse (r : Response)
| NetRaise (e : PyExc).

Inductive Event :=
| ERequest (rq : Request) (res : NetResult)
| ERandom (r : Q)
| ESleep (secs : pyfloat).

Abbreviation loc := positive.

(** The state a call runs in.  [network n rq] is the result of the call
    number [n] to the transport when it is given [rq]; [entropy n] is the
    value number [n] of [random.random()]. *)
Record World := {
  heap : gmap loc Headers;
  network : nat -> Request -> NetResult;
  entropy : nat -> Q;
  trace : list Event;
}.

Definition set_heap (w : World) (h : gmap loc Headers) : World :=
  {| heap := h; network := network w; entropy := entropy w; trace := trace w |}.

Definition log (w : World) (e : Event) : World :=
  {| heap := heap w; network := network w; entropy := entropy w; trace := trace w ++ [e] |}.

Definition is_request (e : Event) : bool :=
  match e with ERequest _ _ => true | _ => false end.

Definition is_random (e : Event) : bool :=
  match e with ERandom _ => true | _ => false end.

Definition is_sleep (e : Event) : bool :=
  match e with ESleep _ => true | _ => false end.

(** How many events of a kind a trace holds. *)
Definition count (p : Event -> bool) (t : list Event) : nat :=
  List.length (List.filter p t).

(** ** Results, and the state-and-exception monad *)

(** What a Python call gives: a value, or a raised exception. *)
Inductive Result (A : Type) :=
| Returned (a : A)
| Raised (e : PyExc).

Arguments Returned {A} a.
Arguments Raised {A} e.

(** Sequencing of code that may raise but has no other effect. *)
Definition and_then {A B} (c : Result A) (k : A -> Result B) : Result B :=
  match c with
  | Returned a => k a
  | Raised e => Raised e
  end.

(** Code that also reads and writes the [World]. *)
Definition M (A : Type) : Type := World -> Result A * World.

Definition ret {A} (a : A) : M A := fun w => (Returned a, w).

Definition raise {A} (e : PyExc) : M A := fun w => (Raised e, w).

Definition lift {A} (c : Result A) : M A := fun w => (c, w).

Definition bind {A B} (c : M A) (k : A -> M B) : M B :=
  fun w =>
    match c w with
    | (Returned a, w') => k a w'
    | (Raised e, w') => (Raised e, w')
    end.

Declare Scope py_scope.
Delimit Scope py_scope with py.
Notation "'let!' x ':=' c 'in' k" := (bind c (fun x => k))
  (at level 10, x pattern, c at level 100, k at level 200) : py_scope.
Notation "c1 '>>' c2" := (bind c1 (fun _ => c2))
  (at level 100, c2 at level 200, right associativity) : py_scope.
Notation "'let?' x ':=' c 'in' k" := (and_then c (fun x => k))
  (at level 10, x pattern, c at level 100, k at level 200) : py_scope.
Open Scope py_scope.

(** ** Library primitives *)

Module Lib.
Import PyStr PyFloat.

(** [{**(src or {})}]: a new dictionary holding the entries of [src].  An
    empty mapping and the [{}] that [or] puts in its place have the same
    entries. *)
Definition dict_copy (src : option loc) : M loc :=
  fun w =>
    let d := match src with
             | Some l => default ∅ (heap w !! l)
             | None => ∅
             end in
    let l' := fresh (dom (heap w)) in
    (Returned l', set_heap w (<[l' := d]> (heap w))).

(** [d[k] = v] *)
Definition dict_setitem (l : loc) (k v : string) : M unit :=
  fun w => (Returned tt, set_heap w (alter (insert k v) l (heap w))).

(** [d.setdefault(k, v)] *)
Definition setdefault (k v : string) (d : Headers) : Headers :=
  match d !! k with
  | Some _ => d
  | None => <[k := v]> d
  end.

Definition dict_setdefault (l : loc) (k v : string) : M unit :=
  fun w => (Returned tt, set_heap w (alter (setdefault k v) l (heap w))).

(** Reading the entries of a dictionary, when it is handed to the
    transport. *)
Definition dict_items (l : loc) : M Headers :=
  fun w => (Returned (default ∅ (heap w !! l)), w).

(** [session.request(...)] and [requests.post(...)]: one call to the
    transport. *)
Definition send (rq : Request) : M Response :=
  fun w =>
    let res := network w (count is_request (trace w)) rq in
    let w' := log w (ERequest rq res) in
    match res with
    | NetResponse r => (Returned r, w')
    | NetRaise e => (Raised e, w')
    end.

(** [Response.raise_for_status()]: [HTTPError] for the client errors
    400..499 and the server errors 500..599. *)
Definition raise_for_status (response : Response) : Result unit :=
  if ((400 <=? status_code response) && (status_code response <? 600))%Z
  then Raised (HTTPError response)
  else Returned tt.

(** [Response.json()] *)
Definition response_json (response : Response) : Result JSON :=
  match json response with
  | Some v => Returned v
  | None => Raised JSONDecodeError
  end.

(** [response.headers.get(name)] on the case-insensitive dictionary. *)
Definition headers_get (response : Response) (name : string) : option string :=
  headers response !! lower name.

(** [random.random()] *)
Definition random : M Q :=
  fun w =>
    let r := entropy w (count is_random (trace w)) in
    (Returned r, log w (ERandom r)).

(** [a + (b - a) * r], the value of [random.uniform(a, b)] for the draw
    [r]. *)
Definition uniform (a b r : Q) : Q := a + (b - a) * r.

(** [random.uniform(a, b)] *)
Definition random_uniform (a b : Q) : M Q :=
  let! r := random in ret (uniform a b r).

Definition two_63 : Q := inject_Z (2 ^ 63).
Definition nanoseconds (q : Q) : Q := q * inject_Z (10 ^ 9).

(** What [time.sleep(secs)] raises, if anything: [ValueError] for [nan]
    and for a negative length, [OverflowError] for a length that does not
    fit the 64-bit nanosecond clock. *)
Definition sleep_error (secs : pyfloat) : option PyExc :=
  match secs with
  | NaN => Some ValueError
  | PosInf | NegInf => Some OverflowError
  | Finite q =>
      if negb (Qle_bool (- two_63) (nanoseconds q)) || Qle_bool two_63 (nanoseconds q)
      then Some OverflowError
      else if is_negative secs then Some ValueError
      else None
  end.

(** [time.sleep(secs)] *)
Definition sleep (secs : pyfloat) : M unit :=
  match sleep_error secs with
  | Some e => raise e
  | None => fun w => (Returned tt, log w (ESleep secs))
  end.



End Lib.

(** ** The client *)

Module Uberpy.
Import PyStr UrlQuote PyFloat Lib.

Definition BASE_URL (version customer_id : string) : string :=
  "https://api.uber.com/" +:+ version +:+ "/customers/" +:+ customer_id.
Definition DEFAULT_TIMEOUT : Q := 10 # 1.
Definition DEFAULT_JITTER_MAX : Q := 1 # 2.
Definition DEFAULT_MAX_RETRIES : Z := 3.
Definition DEFAULT_RETRIABLE_HTTP_CODES : gset Z :=
  {[ 401; 429; 500; 502; 503; 504 ]}%Z.

(** The attributes of a [Base] instance.  The session is the transport of
    the [World]. *)
Record Base := {
  _timeout : Q;
  _api_root : string;
  _jitter_max : Q;
  _max_retries : Z;
  _customer_id : string;
  _access_token : string;
  _retriable_http_codes : gset Z;
}.

(** [Base.__init__] *)
Definition __init__ (customer_id access_token version : string)
    (timeout jitter_max : option Q) (max_retries : option Z)
    (retriable_http_codes : option (gset Z)) : Base :=
  {| _timeout := match timeout with None => DEFAULT_TIMEOUT | Some t => t end;
     _api_root := BASE_URL version customer_id;
     _jitter_max := match jitter_max with None => DEFAULT_JITTER_MAX | Some j => j end;
     _max_retries := match max_retries with None => DEFAULT_MAX_RETRIES | Some n => n end;
     _customer_id := customer_id;
     _access_token := access_token;
     _retriable_http_codes :=
       match retriable_http_codes with
       | None => DEFAULT_RETRIABLE_HTTP_CODES
       | Some codes => codes
       end |}.

(** [str(arg)] *)
Definition str (arg : URL) : string :=
  match arg with
  | UStr s => s
  | UInt n => of_int n
  end.

(** The URL of a call: lines 192-194 of [_request]. *)
Definition build_url (api_root : string) (args : list URL) : string :=
  let path_segments :=
    rstrip "/" api_root :: map (fun arg => quote (strip "/" (str arg)) "") args in
  join "/" path_segments.

(** The body that is sent: a pydantic model is dumped, a mapping goes
    through. *)
Definition serialize (body : option Body) : option JSON :=
  match body with
  | Some (BaseModel dumped) => Some dumped
  | Some (Dict d) => Some d
  | None => None
  end.

(** The end of [_request], once the transport has answered: lines
    212-217. *)
Definition decode (response : Response) : Result JSON :=
  let? _ := raise_for_status response in
  if (status_code response =? 204)%Z || is_empty (content response)
  then Returned (JDict [])
  else response_json response.

(** [Base._request] *)
Definition _request (self : Base) (args : list URL) (body : option Body)
    (params : option Params) (method : Method) (headers : option loc) : M JSON :=
  let! headers := dict_copy headers in
  dict_setitem headers "Authorization" ("Bearer " +:+ _access_token self) >>
  dict_setdefault headers "Accept" "application/json" >>
  let url := build_url (_api_root self) args in
  let body := serialize body in
  let! sent_headers := dict_items headers in
  let! response :=
    send {| rq_method := method; rq_url := url; rq_json := body; rq_data := None;
            rq_params := params; rq_headers := Some sent_headers;
            rq_timeout := _timeout self |} in
  lift (decode response).

(** [min(2**retries, 20) + u] *)
Definition exponential (retries : Z) (u : Q) : pyfloat :=
  Finite (inject_Z (Z.min (2 ^ retries) 20) + u).

(** [min(2**retries, 20) + random.uniform(0, self._jitter_max)] *)
Definition exponential_backoff (self : Base) (retries : Z) : M pyfloat :=
  let! u := random_uniform 0 (_jitter_max self) in
  ret (exponential retries u).

(** Lines 156-160: a [Retry-After] header that is there, is not empty and
    is read by [float] replaces the computed backoff. *)
Definition honor_retry_after (response : Response) (backoff : pyfloat) : pyfloat :=
  match headers_get response "Retry-After" with
  | Some retry_after =>
      if is_empty retry_after then backoff
      else
        match py_float retry_after with
        | Some seconds => seconds
        | None => backoff
        end
  | None => backoff
  end.

(** After the loop: [assert exception] and [raise exception].  An
    exception object is true, so the assertion fails exactly on [None];
    assertions are taken to be enabled. *)
Definition after_loop (exception : option PyExc) : Result JSON :=
  match exception with
  | Some e => Raised e
  | None => Raised AssertionError
  end.

Section Wrapper.
Variables (self : Base) (args : list URL) (body : option Body)
  (params : option Params) (method : Method) (headers : option loc).

(** The [while] loop of [_wrapper], with [fuel] iterations allowed;
    [None] when they do not suffice. *)
Fixpoint wrapper_loop (fuel : nat) (retries : Z) (exception : option PyExc)
    (w : World) : option (Result JSON * World) :=
  if (retries <=? _max_retries self)%Z then
    match fuel with
    | O => None
    | S fuel' =>
        match _request self args body params method headers w with
        | (Returned v, w1) => Some (Returned v, w1)
        | (Raised e, w1) =>
            match e with
            | HTTPError response =>
                if bool_decide (status_code response ∈ _retriable_http_codes self) then
                  match (let! backoff := exponential_backoff self retries in
                         sleep (honor_retry_after response backoff)) w1 with
                  | (Returned _, w2) => wrapper_loop fuel' (retries + 1) (Some e) w2
                  | (Raised e', w2) => Some (Raised e', w2)
                  end
                else Some (Raised e, w1)
            | ConnectionError _ | Timeout _ =>
                match (let! backoff := exponential_backoff self retries in
                       sleep backoff) w1 with
                | (Returned _, w2) => wrapper_loop fuel' (retries + 1) (Some e) w2
                | (Raised e', w2) => Some (Raised e', w2)
                end
            | _ => Some (Raised e, w1)
            end
        end
    end
  else Some (lift (after_loop exception) w).

(** [Base._wrapper] *)
Definition _wrapper (w : World) : option (Result JSON * World) :=
  wrapper_loop (Z.to_nat (_max_retries self + 1)) 0 None w.

End Wrapper.

(** [Base._get], [_put], [_post], [_patch] and [_delete]: the five entry
    points, which only fix the method and pass the body on. *)
Definition _get (self : Base) (args : list URL) (params : option Params)
    (headers : option loc) (w : World) : option (Result JSON * World) :=
  _wrapper self args None params GET headers w.

Definition _put (self : Base) (body : Body) (args : list URL) (params : option Params)
    (headers : option loc) (w : World) : option (Result JSON * World) :=
  _wrapper self args (Some body) params PUT headers w.

Definition _post (self : Base) (body : Body) (args : list URL) (params : option Params)
    (headers : option loc) (w : World) : option (Result JSON * World) :=
  _wrapper self args (Some body) params POST headers w.

Definition _patch (self : Base) (body : Body) (args : list URL) (params : option Params)
    (headers : option loc) (w : World) : option (Result JSON * World) :=
  _wrapper self args (Some body) params PATCH headers w.

Definition _delete (self : Base) (data : option Body) (args : list URL)
    (params : option Params) (headers : option loc) (w : World)
    : option (Result JSON * World) :=
  _wrapper self args data params DELETE headers w.


End Uberpy.

(** ** What the statements speak of *)

Module Observe.
Import PyStr UrlQuote PyFloat Lib Uberpy.

(** The entries of the mapping the caller passed, if any. *)
Definition caller_headers (w : World) (headers : option loc) : Headers :=
  match headers with
  | Some l => default ∅ (heap w !! l)
  | None => ∅
  end.

(** The outcome of one executor attempt, given what the transport
    answered. *)
Definition executor_output (res : NetResult) : Result JSON :=
  match res with
  | NetResponse r => decode r
  | NetRaise e => Raised e
  end.

(** The failures the loop of [_wrapper] catches and retries. *)
Definition retriable (self : Base) (e : PyExc) : bool :=
  match e with
  | HTTPError response => bool_decide (status_code response ∈ _retriable_http_codes self)
  | ConnectionError _ | Timeout _ => true
  | _ => false
  end.

(** The backoff computed after the retriable failure [e] of the attempt
    number [retries], for the random draw [r]. *)
Definition backoff_for (self : Base) (retries : Z) (r : Q) (e : PyExc) : pyfloat :=
  let backoff := exponential retries (uniform 0 (_jitter_max self) r) in
  match e with
  | HTTPError response => honor_retry_after response backoff
  | _ => backoff
  end.

(** What the handlers of [_wrapper] do with a retriable failure before
    the next iteration: lines 154-161 for an [HTTPError], lines 167-168
    for the failures of the connection. *)
Definition pause (self : Base) (retries : Z) (e : PyExc) : M unit :=
  match e with
  | HTTPError response =>
      let! backoff := exponential_backoff self retries in
      sleep (honor_retry_after response backoff)
  | _ =>
      let! backoff := exponential_backoff self retries in
      sleep backoff
  end.

(** The retry state machine: [Run self retries exception evs out] when the
    loop, entered with the counter [retries] and the captured failure
    [exception], can produce the events [evs] and end with [out]. *)
Inductive Run (self : Base) : Z -> option PyExc -> list Event -> Result JSON -> Prop :=
| Run_exhausted retries exception :
    (_max_retries self < retries)%Z ->
    Run self retries exception [] (after_loop exception)
| Run_success retries exception rq res v :
    (retries <= _max_retries self)%Z ->
    executor_output res = Returned v ->
    Run self retries exception [ERequest rq res] (Returned v)
| Run_fatal retries exception rq res e :
    (retries <= _max_retries self)%Z ->
    executor_output res = Raised e ->
    retriable self e = false ->
    Run self retries exception [ERequest rq res] (Raised e)
| Run_sleep_raises retries exception rq res e r e' :
    (retries <= _max_retries self)%Z ->
    executor_output res = Raised e ->
    retriable self e = true ->
    sleep_error (backoff_for self retries r e) = Some e' ->
    Run self retries exception [ERequest rq res; ERandom r] (Raised e')
| Run_retry retries exception rq res e r evs out :
    (retries <= _max_retries self)%Z ->
    executor_output res = Raised e ->
    retriable self e = true ->
    sleep_error (backoff_for self retries r e) = None ->
    Run self (retries + 1) (Some e) evs out ->
    Run self retries exception
      (ERequest rq res :: ERandom r :: ESleep (backoff_for self retries r e) :: evs) out.

(** The headers [_request] hands to the transport when the caller passed
    the entries [d]. *)
Definition outgoing_headers (self : Base) (d : Headers) : Headers :=
  setdefault "Accept" "application/json"
    (<["Authorization" := "Bearer " +:+ _access_token self]> d).

(** The request [_request] sends. *)
Definition request_of (self : Base) (args : list URL) (body : option Body)
    (params : option Params) (method : Method) (d : Headers) : Request :=
  {| rq_method := method; rq_url := build_url (_api_root self) args;
     rq_json := serialize body; rq_data := None; rq_params := params;
     rq_headers := Some (outgoing_headers self d); rq_timeout := _timeout self |}.


(** The text of the [Retry-After] header a failure carries, if any. *)
Definition hint (e : PyExc) : option string :=
  match e with
  | HTTPError response => headers_get response "Retry-After"
  | _ => None
  end.

(** An event the transport [net] can have produced: a request event
    holds an answer [net] gives for that request. *)
Definition answered_by (net : nat -> Request -> NetResult) (ev : Event) : Prop :=
  match ev with
  | ERequest rq res => exists n, res = net n rq
  | _ => True
  end.

(** What [build_url] appends to the root: a separator and the quoted
    segment, for each segment in turn. *)
Fixpoint path_suffix (args : list URL) : string :=
  match args with
  | [] => EmptyString
  | arg :: args' => "/" +:+ quote (strip "/" (str arg)) "" +:+ path_suffix args'
  end.

(** Whether two separators stand side by side in a text. *)
Fixpoint double_separator (s : string) : bool :=
  match s with
  | EmptyString => false
  | String c s' =>
      match s' with
      | EmptyString => false
      | String d _ => Ascii.eqb c "/" && Ascii.eqb d "/"
      end || double_separator s'
  end.

(** The events that come after the last request of a trace. *)
Fixpoint after_last_request (evs : list Event) : list Event :=
  match evs with
  | [] => []
  | e :: evs' =>
      if existsb is_request evs' then after_last_request evs'
      else if is_request e then evs' else e :: evs'
  end.

End Observe.

(** ** Concrete inputs *)

Module Samples.
Import PyStr UrlQuote PyFloat Lib Uberpy Observe.

(** A client with the default configuration. *)
Definition client : Base := __init__ "c" "tok" "v1" None None None None.

(** A client that never retries. *)
Definition client_no_retry : Base := __init__ "c" "tok" "v1" None None (Some 0%Z) None.

Definition response_of (status : Z) (hdrs : gmap string string) (text : string)
    (decoded : option JSON) : Response :=
  {| status_code := status; headers := hdrs; content := text; json := decoded |}.

Definition server_error : Response := response_of 500 ∅ "oops" None.

Definition not_found : Response := response_of 404 ∅ "missing" None.

Definition ok_response : Response :=
  response_of 200 ∅ "[1]" (Some (JList [JInt 1])).

(** A status above the server errors, with an empty body. *)
Definition status_600 : Response := response_of 600 ∅ "" None.

(** A world with an empty heap and an empty trace, whose transport
    answers by [net] and whose random draws are all [0]. *)
Definition world_of (net : nat -> Request -> NetResult) : World :=
  {| heap := ∅; network := net; entropy := fun _ => 0%Q; trace := [] |}.

(** A world in which the caller holds a header mapping at address [1]. *)
Definition world_with_headers : World :=
  {| heap := {[ 1%positive := {[ "Accept" := "text/html" ]} ]};
     network := fun _ _ => NetResponse ok_response;
     entropy := fun _ => 0%Q; trace := [] |}.

(** A client whose [max_retries] is negative. *)
Definition client_negative_budget : Base :=
  __init__ "c" "tok" "v1" None None (Some (-1)%Z) None.

(** A 429 answer that asks for a negative wait. *)
Definition negative_hint : Response :=
  response_of 429 {[ "retry-after" := "-5" ]} "slow down" None.

(** A 429 answer that asks for a wait of seven seconds. *)
Definition seven_seconds : Response :=
  response_of 429 {[ "retry-after" := "7" ]} "slow down" None.



(** The transport always answers [r]. *)
Definition always (r : Response) : nat -> Request -> NetResult :=
  fun _ _ => NetResponse r.

(** The transport answers [first] to the calls before number [n], and
    [then_] from there on. *)
Definition switch_at (n : nat) (first then_ : Response) : nat -> Request -> NetResult :=
  fun k _ => if (k <? n)%nat then NetResponse first else NetResponse then_.

(** The world a call of [_wrapper] without arguments ends in, from the
    empty world. *)
Definition after_call (self : Base) (net : nat -> Request -> NetResult) : World :=
  match _wrapper self [] None None GET None (world_of net) with
  | Some (_, w') => w'
  | None => world_of net
  end.

End Samples.

(** ** The sub-clients, and further observations *)

Module Coverage.
Import PyStr UrlQuote PyFloat Lib Uberpy Observe.

(** A [requests.Session] object, named by its rank among the sessions
    created so far. *)
Abbreviation session := nat (only parsing).

(** The keyword arguments a client class is constructed with. *)
Record Kwargs := {
  kw_customer_id : string;
  kw_access_token : string;
  kw_version : string;
  kw_timeout : option Q;
  kw_session : option session;
  kw_jitter_max : option Q;
  kw_max_retries : option Z;
  kw_retriable_http_codes : option (gset Z);
}.

(** [requests.Session()], when [created] sessions exist already. *)
Definition new_session (created : nat) : session * nat := (created, S created).

(** [session or requests.Session()]; a session object is true. *)
Definition session_or_new (given : option session) (created : nat) : session * nat :=
  match given with
  | Some s => (s, created)
  | None => new_session created
  end.

(** The arguments of a constructor call, with [session] for the session. *)
Definition with_session (kw : Kwargs) (s : session) : Kwargs :=
  {| kw_customer_id := kw_customer_id kw; kw_access_token := kw_access_token kw;
     kw_version := kw_version kw; kw_timeout := kw_timeout kw;
     kw_session := Some s; kw_jitter_max := kw_jitter_max kw;
     kw_max_retries := kw_max_retries kw;
     kw_retriable_http_codes := kw_retriable_http_codes kw |}.

(** An [UberDirect] instance: the attributes [Base.__init__] sets, its
    [_session], and the arguments with which the [Quotes] and [Deliveries]
    sub-clients are constructed. *)
Record UberDirect := {
  base : Base;
  _session : session;
  quotes : Kwargs;
  deliveries : Kwargs;
}.

(** [UberDirect.__init__], with the session line of [Base.__init__]. *)
Definition UberDirect__init__ (kw : Kwargs) (created : nat) : UberDirect * nat :=
  let '(session, created1) := session_or_new (kw_session kw) created in
  let '(own_session, created2) := session_or_new (Some session) created1 in
  ({| base := __init__ (kw_customer_id kw) (kw_access_token kw) (kw_version kw)
                (kw_timeout kw) (kw_jitter_max kw) (kw_max_retries kw)
                (kw_retriable_http_codes kw);
      _session := own_session;
      quotes := with_session kw session;
      deliveries := with_session kw session |},
   created2).

(** The mapping the caller passed, if any, is an object of the heap. *)
Definition headers_allocated (w : World) (headers : option loc) : Prop :=
  match headers with
  | Some l => is_Some (heap w !! l)
  | None => True
  end.

(** An event of a call that sends [rq0]: a request event is for [rq0] and
    holds an answer of the transport of [w]; a draw is a value of the
    random generator of [w]. *)
Definition produced_in (w : World) (rq0 : Request) (ev : Event) : Prop :=
  match ev with
  | ERequest rq res => rq = rq0 /\ exists n, res = network w n rq0
  | ERandom r => exists n, r = entropy w n
  | ESleep _ => True
  end.

(** The failures of the second handler of [_wrapper]. *)
Definition connection_failure (e : PyExc) : bool :=
  match e with
  | ConnectionError _ | Timeout _ => true
  | _ => false
  end.

(** A sleep event lasts a finite time between [0] and [bound]. *)
Definition sleep_within (bound : Q) (ev : Event) : Prop :=
  match ev with
  | ESleep (Finite q) => (0 <= q <= bound)%Q
  | ESleep _ => False
  | _ => True
  end.

(** The longest exponential backoff: the cap and the whole jitter. *)
Definition longest_backoff (self : Base) : Q := (20 + _jitter_max self)%Q.

(** A draw of a call in [w] is a value of the random generator of [w]. *)
Definition drawn_in (w : World) (ev : Event) : Prop :=
  match ev with
  | ERandom r => exists n, r = entropy w n
  | _ => True
  end.

(** Every random draw is a value of [random.random()], in [[0, 1)]. *)
Definition draws_in_range (w : World) : Prop :=
  forall n, (0 <= entropy w n < 1)%Q.

(** No failure of an attempt carries a [Retry-After] header. *)
Definition no_hints (w : World) : Prop :=
  forall n rq e, executor_output (network w n rq) = Raised e -> hint e = None.

(** [sleep] takes the longest exponential backoff. *)
Definition jitter_sleepable (self : Base) : Prop :=
  (0 <= _jitter_max self)%Q /\ (nanoseconds (longest_backoff self) < two_63)%Q.

Definition hex_value (c : ascii) : N :=
  if is_digit c then (code c - 48)%N else (code c - 55)%N.

(** Reading a quoted text back: [%XX] gives the character of code [XX],
    any other character stands for itself. *)
Fixpoint unquote (s : string) : string :=
  match s with
  | EmptyString => EmptyString
  | String c s' =>
      if Ascii.eqb c "%" then
        match s' with
        | String h1 (String h2 s'') =>
            String (ascii_of_N (16 * hex_value h1 + hex_value h2)) (unquote s'')
        | _ => s
        end
      else String c (unquote s')
  end.

(** The characters of a text. *)
Definition chars (s : string) : list ascii := list_ascii_of_string s.

(** A transport on which every call fails with a lost connection. *)
Definition always_down : nat -> Request -> NetResult :=
  fun n _ => NetRaise (ConnectionError "down").

(** A 200 answer whose body is not JSON. *)
Definition undecodable : Response := Samples.response_of 200 ∅ "<html>" None.

(** The time spent in the sleeps of a trace, in seconds. *)
Fixpoint time_slept (evs : list Event) : Q :=
  match evs with
  | [] => 0
  | ESleep (Finite q) :: evs' => q + time_slept evs'
  | _ :: evs' => time_slept evs'
  end.

(** The world in which a [GET] call without segments ends. *)
Definition call_end (self : Base) (headers : option loc) (w : World) : World :=
  match _wrapper self [] None None GET headers w with
  | Some (_, w') => w'
  | None => w
  end.

(** Keyword arguments without a session. *)
Definition plain_kwargs : Kwargs :=
  {| kw_customer_id := "c"; kw_access_token := "tok"; kw_version := "v1";
     kw_timeout := None; kw_session := None; kw_jitter_max := None;
     kw_max_retries := None; kw_retriable_http_codes := None |}.

(** A world in which the caller holds, at address [1], a header mapping
    whose names are spelled in lower case. *)
Definition world_with_lowercase_headers : World :=
  {| heap := {[ 1%positive :=
                  {[ "accept" := "text/html"; "authorization" := "Basic abc" ]} ]};
     network := fun _ _ => NetResponse Samples.ok_response;
     entropy := fun _ => 0%Q; trace := [] |}.

(** The header mappings of the requests of a trace, in order. *)
Definition sent_headers (evs : list Event) : list Headers :=
  flat_map (fun ev =>
              match ev with
              | ERequest rq _ =>
                  match rq_headers rq with Some sent => [sent] | None => [] end
              | _ => []
              end) evs.

(** A world whose connection is down and whose random draws are all
    [1/4]. *)
Definition quarter_draws : World :=
  {| heap := ∅; network := always_down; entropy := fun _ => (1 # 4)%Q; trace := [] |}.

(** That world after one attempt of the default client. *)
Definition after_lost_connection : World :=
  snd (_request Samples.client [] None None GET None quarter_draws).

End Coverage.

(** ** The request executor *)

Module Executor.
Import PyStr UrlQuote PyFloat Lib Uberpy Observe.

(** One run of [_request]: a fresh dictionary receives the outgoing
    headers, one request goes to the transport, and the answer is
    decoded. *)
Lemma request_run self args body params method hdrs w :
  let d := caller_headers w hdrs in
  let rq := request_of self args body params method d in
  let res := network w (count is_request (trace w)) rq in
  _request self args body params method hdrs w =
    (executor_output res,
     log (set_heap w (<[fresh (dom (heap w)) := outgoing_headers self d]> (heap w)))
       (ERequest rq res)).
Proof.
  intros d rq res.
  unfold _request, bind, dict_copy, dict_setitem, dict_setdefault, dict_items, send, lift.
  cbn [heap set_heap network trace entropy].
  rewrite !alter_insert_eq, lookup_insert_eq. cbn [default from_option id].
  subst res rq d.
  unfold executor_output, request_of, outgoing_headers, caller_headers, log, set_heap.
  cbn [heap network trace entropy].
  destruct (network w _ _); reflexivity.
Qed.

Lemma fresh_loc_unused (h : gmap loc Headers) : h !! fresh (dom h) = None.
Proof. apply not_elem_of_dom, is_fresh. Qed.

Lemma request_heap_grows self args body params method hdrs w :
  heap w ⊆ heap (snd (_request self args body params method hdrs w)).
Proof.
  rewrite request_run. cbn. apply insert_subseteq, fresh_loc_unused.
Qed.

Lemma outgoing_authorization self d :
  outgoing_headers self d !! "Authorization" = Some ("Bearer " +:+ _access_token self).
Proof.
  unfold outgoing_headers, setdefault.
  destruct (_ !! "Accept"); [| rewrite lookup_insert_ne by done];
    apply lookup_insert_eq.
Qed.

Lemma outgoing_accept self d :
  outgoing_headers self d !! "Accept" =
    Some (match d !! "Accept" with Some v => v | None => "application/json" end).
Proof.
  unfold outgoing_headers, setdefault.
  rewrite (lookup_insert_ne d "Authorization" "Accept") by done.
  destruct (d !! "Accept") eqn:Hd.
  - rewrite lookup_insert_ne by done. exact Hd.
  - apply lookup_insert_eq.
Qed.

Lemma outgoing_other self d k :
  k ≠ "Authorization" -> k ≠ "Accept" -> outgoing_headers self d !! k = d !! k.
Proof.
  intros Hauth Hacc. unfold outgoing_headers, setdefault.
  destruct (_ !! "Accept"); rewrite ?lookup_insert_ne by done; reflexivity.
Qed.

(** C7, as the code has it.  [_request] works on a copy of the caller's
    headers: the mapping the caller passed is the same object with the
    same entries after the call, as is every object that existed before
    it.  The names of the headers are compared as the keys of a [dict]
    are, letter for letter: the headers that go out carry
    [Authorization: Bearer <token>] under that very key, whatever the
    caller gave under it; under the key [Accept] the caller's value if
    the mapping has that very key and [application/json] otherwise; and
    under every other key, another spelling of these two names among
    them, what the caller gave. *)
Theorem caller_headers_not_mutated self args body params method
    (l : loc) (d : Headers) (w : World) :
  heap w !! l = Some d ->
  let w' := snd (_request self args body params method (Some l) w) in
  heap w' !! l = Some d /\
  (forall l' d', heap w !! l' = Some d' -> heap w' !! l' = Some d') /\
  exists rq res sent,
    trace w' = trace w ++ [ERequest rq res] /\
    rq_headers rq = Some sent /\
    sent !! "Authorization" = Some ("Bearer " +:+ _access_token self) /\
    sent !! "Accept" =
      Some (match d !! "Accept" with Some v => v | None => "application/json" end) /\
    (forall k, k ≠ "Authorization" -> k ≠ "Accept" -> sent !! k = d !! k).
Proof.
  intros Hl w'.
  assert (Hframe : forall l' d', heap w !! l' = Some d' -> heap w' !! l' = Some d').
  { intros l' d' H'. eapply lookup_weaken; [exact H' | apply request_heap_grows]. }
  split; [auto | split; [exact Hframe |]].
  subst w'. rewrite request_run. cbn [snd log set_heap trace].
  unfold caller_headers. rewrite Hl. cbn [default from_option id].
  eexists _, _, (outgoing_headers self d).
  split; [reflexivity |]. split; [reflexivity |].
  split; [apply outgoing_authorization |].
  split; [apply outgoing_accept | apply outgoing_other].
Qed.

(** The theorem on a caller who passes [Accept: text/html]. *)
Lemma caller_headers_not_mutated_witness :
  heap (snd (_request Samples.client [] None None GET (Some 1%positive)
               Samples.world_with_headers)) !! 1%positive
    = Some {[ "Accept" := "text/html" ]}.
Proof.
  exact (proj1 (caller_headers_not_mutated Samples.client [] None None GET 1%positive
                  {[ "Accept" := "text/html" ]} Samples.world_with_headers eq_refl)).
Defined.

(** C7 as stated fails for a caller who spells the names in lower case:
    [accept: text/html] is an Accept header the caller supplied, and yet
    [Accept: application/json] is set beside it; the caller's
    [authorization] value is not overridden but sent along with the
    bearer token. *)
Lemma lowercase_headers_are_not_recognised :
  let w' := snd (_request Samples.client [] None None GET (Some 1%positive)
                   Coverage.world_with_lowercase_headers) in
  exists sent,
    Coverage.sent_headers (trace w') = [sent] /\
    sent !! "accept" = Some "text/html" /\
    sent !! "Accept" = Some "application/json" /\
    sent !! "authorization" = Some "Basic abc" /\
    sent !! "Authorization" = Some "Bearer tok".
Proof.
  intros w'. subst w'. rewrite request_run. cbn [snd log trace set_heap app].
  eexists. split; [reflexivity |].
  repeat split; vm_compute; reflexivity.
Qed.

(** What [decode] gives, by the status of the response. *)
Lemma decode_cases (r : Response) :
  decode r =
    if ((400 <=? status_code r) && (status_code r <? 600))%Z then Raised (HTTPError r)
    else if (status_code r =? 204)%Z || PyStr.is_empty (content r) then Returned (JDict [])
    else match json r with Some v => Returned v | None => Raised JSONDecodeError end.
Proof.
  unfold decode, raise_for_status, response_json, and_then.
  destruct ((400 <=? status_code r) && (status_code r <? 600))%Z; reflexivity.
Qed.

Lemma error_status_true (s : Z) :
  (400 <= s < 600)%Z -> ((400 <=? s) && (s <? 600))%Z = true.
Proof.
  intros Hs. destruct (Z.leb_spec 400 s), (Z.ltb_spec s 600); first [reflexivity | lia].
Qed.

Lemma error_status_false (s : Z) :
  ~ (400 <= s < 600)%Z -> ((400 <=? s) && (s <? 600))%Z = false.
Proof.
  intros Hs. destruct (Z.leb_spec 400 s), (Z.ltb_spec s 600); first [reflexivity | lia].
Qed.

(** C8, as the code has it.  When the transport answers the call with
    the response [r]: a status from 400 to 599 makes [_request] raise
    an [HTTPError] that carries [r]; any other status gives the empty
    mapping when it is 204 or the body is empty, and otherwise what
    decoding the body as JSON gives, the value or the error of the
    decoder. *)
Theorem executor_response_cases self args body params method hdrs (w : World)
    (r : Response) :
  network w (count is_request (trace w))
    (request_of self args body params method (caller_headers w hdrs)) = NetResponse r ->
  let out := fst (_request self args body params method hdrs w) in
  let s := status_code r in
  ((400 <= s < 600)%Z -> out = Raised (HTTPError r)) /\
  (~ (400 <= s < 600)%Z -> s = 204%Z \/ content r = "" -> out = Returned (JDict [])) /\
  (~ (400 <= s < 600)%Z -> s ≠ 204%Z -> content r ≠ "" ->
     forall v, json r = Some v -> out = Returned v) /\
  (~ (400 <= s < 600)%Z -> s ≠ 204%Z -> content r ≠ "" ->
     json r = None -> out = Raised JSONDecodeError).
Proof.
  intros Hnet out s. subst out. rewrite request_run. cbn [fst].
  rewrite Hnet. cbn [executor_output]. rewrite decode_cases. fold s.
  assert (Hbody : s ≠ 204%Z -> content r ≠ "" ->
                  (s =? 204)%Z || PyStr.is_empty (content r) = false).
  { intros H204 Hc. destruct (Z.eqb_spec s 204); [contradiction |].
    by destruct (content r). }
  split_and!.
  - intros Hs. by rewrite error_status_true.
  - intros Hs [H204|Hempty]; rewrite error_status_false by assumption.
    + by rewrite H204.
    + rewrite Hempty. cbn [PyStr.is_empty]. by rewrite orb_true_r.
  - intros Hs H204 Hc v Hv.
    by rewrite error_status_false, Hbody, Hv.
  - intros Hs H204 Hc Hv.
    by rewrite error_status_false, Hbody, Hv.
Qed.

(** The theorem on a 404 answer. *)
Lemma executor_response_cases_witness :
  fst (_request Samples.client [] None None GET None
         (Samples.world_of (fun _ _ => NetResponse Samples.not_found)))
    = Raised (HTTPError Samples.not_found).
Proof.
  refine (proj1 (executor_response_cases Samples.client [] None None GET None
                   (Samples.world_of (fun _ _ => NetResponse Samples.not_found))
                   Samples.not_found eq_refl) _).
  cbn. lia.
Defined.

(** C8 as stated fails above 599: a response with status 600 is not
    turned into an [HTTPError]; with an empty body the call returns the
    empty mapping. *)
Lemma status_600_is_not_an_error :
  (status_code Samples.status_600 >= 400)%Z /\
  fst (_request Samples.client [] None None GET None
         (Samples.world_of (fun _ _ => NetResponse Samples.status_600)))
    = Returned (JDict []).
Proof.
  split; [cbn; lia |]. rewrite request_run. reflexivity.
Qed.

End Executor.

(** ** The retry orchestrator *)

Module Retry.
Import PyStr UrlQuote PyFloat Lib Uberpy Observe.

Section Loop.
Variables (self : Base) (args : list URL) (body : option Body)
  (params : option Params) (method : Method) (hdrs : option loc).

Local Abbreviation max := (_max_retries self).
Local Abbreviation loop := (wrapper_loop self args body params method hdrs).

(** Computing the backoff and sleeping: one draw, then either the
    sleep or what [sleep] raises. *)
Lemma backoff_then_sleep (f : pyfloat -> pyfloat) retries w :
  (let! backoff := exponential_backoff self retries in sleep (f backoff)) w =
    let r := entropy w (count is_random (trace w)) in
    let d := f (exponential retries (uniform 0 (_jitter_max self) r)) in
    match sleep_error d with
    | Some e' => (Raised e', log w (ERandom r))
    | None => (Returned tt, log (log w (ERandom r)) (ESleep d))
    end.
Proof.
  unfold exponential_backoff, random_uniform, random, bind, ret, sleep, raise.
  cbn zeta. destruct (sleep_error _); reflexivity.
Qed.

Lemma pause_run retries e w :
  pause self retries e w =
    let r := entropy w (count is_random (trace w)) in
    match sleep_error (backoff_for self retries r e) with
    | Some e' => (Raised e', log w (ERandom r))
    | None => (Returned tt, log (log w (ERandom r)) (ESleep (backoff_for self retries r e)))
    end.
Proof.
  unfold pause, backoff_for.
  destruct e; first [ apply (backoff_then_sleep (fun b => b))
                    | apply (backoff_then_sleep (honor_retry_after _)) ].
Qed.

(** One iteration of the loop, by the outcome of the attempt. *)
Lemma loop_step fuel retries exception w :
  (retries <= max)%Z ->
  loop (S fuel) retries exception w =
    match _request self args body params method hdrs w with
    | (Returned v, w1) => Some (Returned v, w1)
    | (Raised e, w1) =>
        if retriable self e then
          match pause self retries e w1 with
          | (Returned _, w2) => loop fuel (retries + 1) (Some e) w2
          | (Raised e', w2) => Some (Raised e', w2)
          end
        else Some (Raised e, w1)
    end.
Proof.
  intros Hle. cbn [wrapper_loop].
  destruct (Z.leb_spec retries max) as [_|]; [| lia].
  destruct (_request _ _ _ _ _ _ _) as [[v|e] w1]; [reflexivity |].
  destruct e; cbn [retriable pause]; try reflexivity.
Qed.

Lemma loop_exit fuel retries exception w :
  (max < retries)%Z ->
  loop fuel retries exception w = Some (after_loop exception, w).
Proof.
  intros Hlt. destruct fuel; cbn [wrapper_loop];
    destruct (Z.leb_spec retries max); first [lia | reflexivity].
Qed.

(** Fuel beyond what the loop needs changes nothing. *)
Lemma loop_more_fuel fuel :
  forall retries exception w x,
    loop fuel retries exception w = Some x ->
    loop (S fuel) retries exception w = Some x.
Proof.
  induction fuel as [|fuel IH]; intros retries exception w x Hx;
    destruct (Z.leb_spec retries max) as [Hle|Hgt];
    try (rewrite loop_exit in * by assumption; exact Hx).
  - cbn [wrapper_loop] in Hx.
    destruct (Z.leb_spec retries max); [discriminate | lia].
  - rewrite loop_step in * by assumption.
    destruct (_request _ _ _ _ _ _ _) as [[v|e] w1]; [exact Hx |].
    destruct (retriable self e); [| exact Hx].
    destruct (pause self retries e w1) as [[[]|e'] w2]; [| exact Hx].
    by apply IH.
Qed.

(** The loop ends, and what it does is a run of the state machine: with
    enough fuel for the iterations that remain, it gives an outcome,
    extends the trace by the events of a [Run], leaves the oracles as
    they were and keeps every object of the heap. *)
Lemma loop_refines_run fuel :
  forall retries exception w,
    (Z.to_nat (max + 1 - retries) <= fuel)%nat ->
    exists out w' evs,
      loop fuel retries exception w = Some (out, w') /\
      trace w' = trace w ++ evs /\
      network w' = network w /\
      entropy w' = entropy w /\
      heap w ⊆ heap w' /\
      Forall (answered_by (network w)) evs /\
      Run self retries exception evs out.
Proof.
  induction fuel as [|fuel IH]; intros retries exception w Hfuel.
  - assert (max < retries)%Z by lia.
    rewrite loop_exit by assumption.
    exists (after_loop exception), w, [].
    rewrite app_nil_r. split_and!; auto. by constructor.
  - destruct (Z.leb_spec retries max) as [Hle|Hgt].
    2:{ rewrite loop_exit by assumption.
        exists (after_loop exception), w, [].
        rewrite app_nil_r. split_and!; auto. by constructor. }
    rewrite loop_step by assumption.
    rewrite Executor.request_run.
    set (rq := request_of _ _ _ _ _ _).
    set (res := network w _ rq).
    set (w1 := log _ _).
    assert (Hheap1 : heap w ⊆ heap w1)
      by (apply insert_subseteq, Executor.fresh_loc_unused).
    assert (Hans : answered_by (network w) (ERequest rq res))
      by (eexists; reflexivity).
    destruct (executor_output res) as [v|e] eqn:Hout.
    { exists (Returned v), w1, [ERequest rq res].
      split_and!; auto. by constructor. }
    destruct (retriable self e) eqn:Hretry.
    2:{ exists (Raised e), w1, [ERequest rq res].
        split_and!; auto. by constructor. }
    rewrite pause_run. cbn zeta.
    set (r := entropy w1 _).
    destruct (sleep_error (backoff_for self retries r e)) as [e'|] eqn:Hsleep.
    { exists (Raised e'), (log w1 (ERandom r)), [ERequest rq res; ERandom r].
      split_and!; auto.
      - cbn. by rewrite <- app_assoc.
      - repeat constructor. exact Hans.
      - eapply Run_sleep_raises; eauto. }
    set (w2 := log (log w1 (ERandom r)) (ESleep _)).
    destruct (IH (retries + 1)%Z (Some e) w2)
      as (out & w' & evs & Hrun & Htr & Hnet & Hent & Hheap & Hall & HR); [lia |].
    exists out, w', (ERequest rq res :: ERandom r :: ESleep (backoff_for self retries r e) :: evs).
    split_and!.
    + exact Hrun.
    + rewrite Htr. cbn. by rewrite <- !app_assoc.
    + by rewrite Hnet.
    + by rewrite Hent.
    + by etrans.
    + repeat (constructor; [first [exact Hans | exact I] |]). exact Hall.
    + eapply Run_retry; eauto.
Qed.

(** [_wrapper] always ends. *)
Lemma wrapper_refines_run w :
  exists out w' evs,
    _wrapper self args body params method hdrs w = Some (out, w') /\
    trace w' = trace w ++ evs /\
    heap w ⊆ heap w' /\
    Forall (answered_by (network w)) evs /\
    Run self 0 None evs out.
Proof.
  destruct (loop_refines_run (Z.to_nat (max + 1)) 0 None w)
    as (out & w' & evs & Hrun & Htr & _ & _ & Hheap & Hall & HR).
  { replace (max + 1 - 0)%Z with (max + 1)%Z by lia. lia. }
  exists out, w', evs. auto.
Qed.

End Loop.

(** *** Counting events *)

Lemma count_cons p e t :
  count p (e :: t) = ((if p e then 1 else 0) + count p t)%nat.
Proof. unfold count. cbn [List.filter]. destruct (p e); reflexivity. Qed.

Lemma count_app p t1 t2 : count p (t1 ++ t2) = (count p t1 + count p t2)%nat.
Proof. unfold count. by rewrite List.filter_app, List.length_app. Qed.

(** *** Properties of the runs of the state machine *)

Section Runs.
Variable self : Base.
Local Abbreviation max := (_max_retries self).

(** Past the budget the loop does nothing but the code after it. *)
Lemma run_past_budget retries exception evs out :
  Run self retries exception evs out ->
  (max < retries)%Z ->
  evs = [] /\ out = after_loop exception.
Proof. destruct 1; intros; first [lia | auto]. Qed.

(** A run holds at most one request per iteration that remains. *)
Lemma run_attempts retries exception evs out :
  Run self retries exception evs out ->
  (Z.of_nat (count is_request evs) <= Z.max 0 (max + 1 - retries))%Z.
Proof.
  induction 1; rewrite ?count_cons; cbn [is_request]; unfold count in *;
    cbn [List.filter List.length] in *; lia.
Qed.

(** A run that holds a successful attempt returns its value. *)
Lemma run_success_returned retries exception evs out :
  Run self retries exception evs out ->
  forall rq res v,
    In (ERequest rq res) evs -> executor_output res = Returned v -> out = Returned v.
Proof.
  induction 1; intros rq' res' v' Hin Hv'; cbn [In] in Hin.
  - contradiction.
  - destruct Hin as [[= <- <-]|[]]. congruence.
  - destruct Hin as [[= <- <-]|[]]. congruence.
  - destruct Hin as [[= <- <-]|[[=]|[]]]. congruence.
  - destruct Hin as [[= <- <-]|[[=]|[[=]|Hin]]]; [congruence | eauto].
Qed.

(** The attempt made with the counter at [max_retries], when it fails
    with a retriable failure, is the last one: the backoff is computed
    and slept, and the failure is raised; or the sleep raises. *)
Lemma run_final_attempt retries exception evs out :
  Run self retries exception evs out ->
  forall pre rq res post e,
    evs = pre ++ ERequest rq res :: post ->
    Z.of_nat (count is_request pre) = (max - retries)%Z ->
    executor_output res = Raised e ->
    retriable self e = true ->
    exists r,
      (sleep_error (backoff_for self max r e) = None /\
       post = [ERandom r; ESleep (backoff_for self max r e)] /\
       out = Raised e) \/
      (exists e', sleep_error (backoff_for self max r e) = Some e' /\
                  post = [ERandom r] /\ out = Raised e').
Proof.
  induction 1 as [retries exception Hgt
                 |retries exception rq0 res0 v Hle Hv
                 |retries exception rq0 res0 e0 Hle He0 Hfatal
                 |retries exception rq0 res0 e0 r e' Hle He0 Hretry Hsleep
                 |retries exception rq0 res0 e0 r evs out Hle He0 Hretry Hsleep HR IH];
    intros pre rq res post e Hevs Hcount He Hre.
  - by destruct pre.
  - destruct pre as [|? [|? ?]]; simplify_eq/=. congruence.
  - destruct pre as [|? [|? ?]]; simplify_eq/=. congruence.
  - destruct pre as [|? [|? [|? ?]]]; simplify_eq/=.
    assert (retries = max) as -> by (unfold count in Hcount; cbn in Hcount; lia).
    assert (e0 = e) as -> by congruence.
    exists r. right. eauto.
  - destruct pre as [|ev0 [|ev1 [|ev2 pre]]]; simplify_eq/=.
    + assert (retries = max) as -> by (unfold count in Hcount; cbn in Hcount; lia).
      assert (e0 = e) as -> by congruence.
      destruct (run_past_budget _ _ _ _ HR) as [-> ->]; [lia |].
      exists r. left. auto.
    + apply (IH pre rq res post e eq_refl); auto.
      rewrite !count_cons in Hcount. cbn [is_request] in Hcount. lia.
Qed.

(** The failures the loop captures are never an [AssertionError]. *)
Lemma retriable_not_assertion e : retriable self e = true -> e ≠ AssertionError.
Proof. by destruct e. Qed.

Lemma decode_not_assertion r e : decode r = Raised e -> e ≠ AssertionError.
Proof.
  rewrite Executor.decode_cases. intros H ->.
  destruct (_ && _); [discriminate |].
  destruct (_ || _); [discriminate |].
  by destruct (json r).
Qed.

Lemma sleep_error_not_assertion d e : sleep_error d = Some e -> e ≠ AssertionError.
Proof.
  unfold sleep_error. intros H ->.
  destruct d; try discriminate.
  destruct (_ || _); [discriminate |].
  by destruct (is_negative _).
Qed.

(** When the transport does not raise [AssertionError] and the loop is
    entered with an iteration to do or with a captured failure, the
    [assert] after the loop holds. *)
Lemma run_assertion_holds net retries exception evs out :
  Run self retries exception evs out ->
  (forall n rq, net n rq ≠ NetRaise AssertionError) ->
  Forall (answered_by net) evs ->
  (retries <= max)%Z \/ (exists e, exception = Some e /\ e ≠ AssertionError) ->
  out ≠ Raised AssertionError.
Proof.
  intros HR Hnet. induction HR as [retries exception Hgt
                 |retries exception rq0 res0 v Hle Hv
                 |retries exception rq0 res0 e0 Hle He0 Hfatal
                 |retries exception rq0 res0 e0 r e' Hle He0 Hretry Hsleep
                 |retries exception rq0 res0 e0 r evs out Hle He0 Hretry Hsleep HR IH];
    intros Hall Hinv.
  - destruct Hinv as [|(e & -> & Hne)]; [lia |]. cbn. congruence.
  - discriminate.
  - apply Forall_cons_1 in Hall as [[n ->] _].
    destruct (net n rq0) as [r|e] eqn:Hn; cbn in He0.
    + apply decode_not_assertion in He0. congruence.
    + assert (e ≠ AssertionError) by (intros ->; by apply (Hnet n rq0)). congruence.
  - apply sleep_error_not_assertion in Hsleep. congruence.
  - apply IH.
    + by do 3 apply Forall_cons_1 in Hall as [_ Hall].
    + right. exists e0. split; [reflexivity | by apply retriable_not_assertion].
Qed.

(** A run whose last event is a sleep was left by the code after the
    loop, which raised the failure of the attempt before that sleep. *)
Lemma run_left_after_sleep retries exception evs out :
  Run self retries exception evs out ->
  forall pre rq res r d,
    evs = pre ++ [ERequest rq res; ERandom r; ESleep d] ->
    exists e,
      executor_output res = Raised e /\ retriable self e = true /\ out = Raised e.
Proof.
  induction 1 as [retries exception Hgt
                 |retries exception rq0 res0 v Hle Hv
                 |retries exception rq0 res0 e0 Hle He0 Hfatal
                 |retries exception rq0 res0 e0 r0 e' Hle He0 Hretry Hsleep
                 |retries exception rq0 res0 e0 r0 evs out Hle He0 Hretry Hsleep HR IH];
    intros pre rq res r d Hevs.
  - by destruct pre.
  - destruct pre as [|? [|? ?]]; simplify_eq/=.
  - destruct pre as [|? [|? ?]]; simplify_eq/=.
  - destruct pre as [|? [|? [|? ?]]]; simplify_eq/=.
  - destruct pre as [|ev0 [|ev1 [|ev2 pre]]]; simplify_eq/=.
    + inversion HR; subst. exists e0. auto.
    + eapply IH. reflexivity.
Qed.

End Runs.

(** *** The claims about [_wrapper] *)

Section Claims.
Variables (self : Base) (args : list URL) (body : option Body)
  (params : option Params) (method : Method) (hdrs : option loc).

Local Abbreviation max := (_max_retries self).
Local Abbreviation wrapper := (_wrapper self args body params method hdrs).

(** C1.  With [max_retries >= 0] a call through [_wrapper] ends, makes
    at most [max_retries + 1] requests, and when one of its attempts
    succeeds the call returns the output of that attempt, however many
    failures came before. *)
Theorem attempts_bounded_and_success_returned (w : World) :
  (0 <= max)%Z ->
  exists out w' evs,
    wrapper w = Some (out, w') /\
    trace w' = trace w ++ evs /\
    (Z.of_nat (count is_request evs) <= max + 1)%Z /\
    forall rq res v,
      In (ERequest rq res) evs -> executor_output res = Returned v ->
      out = Returned v.
Proof.
  intros Hmax.
  destruct (wrapper_refines_run self args body params method hdrs w)
    as (out & w' & evs & Hrun & Htr & _ & _ & HR).
  exists out, w', evs. split_and!; auto.
  - pose proof (run_attempts _ _ _ _ _ HR). lia.
  - eauto using run_success_returned.
Qed.

(** C2, as the code has it.  The attempt made with the counter at
    [max_retries] is the last one.  When it fails with a retriable
    failure [e], the backoff for it is still computed and, when [sleep]
    takes it, slept, after which [e] itself is raised; when [sleep]
    refuses it, what [sleep] raises comes out.  No request follows. *)
Theorem final_failure_sleeps_then_reraises (w w' : World) out pre rq res post e :
  wrapper w = Some (out, w') ->
  trace w' = trace w ++ pre ++ ERequest rq res :: post ->
  Z.of_nat (count is_request pre) = max ->
  executor_output res = Raised e ->
  retriable self e = true ->
  exists r,
    (sleep_error (backoff_for self max r e) = None /\
     post = [ERandom r; ESleep (backoff_for self max r e)] /\
     out = Raised e) \/
    (exists e', sleep_error (backoff_for self max r e) = Some e' /\
                post = [ERandom r] /\ out = Raised e').
Proof.
  intros Hrun Htr Hcount He Hre.
  destruct (wrapper_refines_run self args body params method hdrs w)
    as (out2 & w2 & evs & Hrun2 & Htr2 & _ & _ & HR).
  rewrite Hrun in Hrun2. injection Hrun2 as <- <-.
  rewrite Htr in Htr2. apply app_inv_head in Htr2.
  eapply (run_final_attempt self 0 None evs out HR pre rq res post e); eauto.
  lia.
Qed.

(** C3.  When the first attempt is answered by an HTTP error whose
    status is not in the retriable set, [_wrapper] raises the
    [HTTPError] that carries that very response, after exactly one
    request, no random draw and no sleep. *)
Theorem fatal_status_raised_at_once (w : World) (r : Response) :
  (0 <= max)%Z ->
  network w (count is_request (trace w))
    (request_of self args body params method (caller_headers w hdrs)) = NetResponse r ->
  (400 <= status_code r < 600)%Z ->
  status_code r ∉ _retriable_http_codes self ->
  exists w',
    wrapper w = Some (Raised (HTTPError r), w') /\
    trace w' = trace w ++
      [ERequest (request_of self args body params method (caller_headers w hdrs))
         (NetResponse r)].
Proof.
  intros Hmax Hnet Hstatus Hcode.
  unfold _wrapper.
  destruct (Z.to_nat (max + 1)) as [|fuel] eqn:Hfuel; [lia |].
  rewrite loop_step by assumption.
  rewrite Executor.request_run, Hnet. cbn [executor_output].
  rewrite Executor.decode_cases.
  destruct (Z.leb_spec 400 (status_code r)); [| lia].
  destruct (Z.ltb_spec (status_code r) 600); [| lia].
  cbn [andb retriable]. rewrite bool_decide_eq_false_2 by assumption.
  eexists. split; reflexivity.
Qed.

(** C10.  With [max_retries >= 0], and a transport that does not itself
    raise [AssertionError], [_wrapper] makes an attempt and never ends
    in an [AssertionError].  The code after the loop is reached only
    when an iteration went on to the next one, that is after a sleep,
    and then with the failure of the attempt before that sleep captured:
    a call whose last event is a sleep raises that very failure.  And
    whenever the loop is left with a captured failure, the code after it
    raises that failure and touches nothing.  With a negative
    [max_retries] the call makes no attempt, leaves the world as it is
    and raises [AssertionError]. *)
Theorem assertion_holds_iff_budget_nonnegative (w : World) :
  ((0 <= max)%Z ->
   (forall n rq, network w n rq ≠ NetRaise AssertionError) ->
   exists out w' evs,
     wrapper w = Some (out, w') /\
     trace w' = trace w ++ evs /\
     (1 <= count is_request evs)%nat /\
     out ≠ Raised AssertionError /\
     (forall pre rq res r d,
         evs = pre ++ [ERequest rq res; ERandom r; ESleep d] ->
         exists e,
           executor_output res = Raised e /\ retriable self e = true /\
           out = Raised e)) /\
  (forall fuel retries e w0,
      (max < retries)%Z ->
      wrapper_loop self args body params method hdrs fuel retries (Some e) w0 =
        Some (Raised e, w0)) /\
  ((max < 0)%Z -> wrapper w = Some (Raised AssertionError, w)).
Proof.
  split_and!.
  - intros Hmax Hnet.
    destruct (wrapper_refines_run self args body params method hdrs w)
      as (out & w' & evs & Hrun & Htr & _ & Hall & HR).
    exists out, w', evs. split_and!; auto.
    + inversion HR; subst; rewrite ?count_cons; cbn [is_request]; lia.
    + eapply run_assertion_holds; eauto.
    + eapply run_left_after_sleep; eauto.
  - intros fuel retries e w0 Hgt. by rewrite loop_exit by assumption.
  - intros Hneg. unfold _wrapper. by rewrite loop_exit by lia.
Qed.

End Claims.

(** A whole call through [_wrapper] leaves the caller's mapping, and every
    object that existed before the call, as it was. *)
Lemma wrapper_keeps_heap self args body params method hdrs (w w' : World) out l d :
  _wrapper self args body params method hdrs w = Some (out, w') ->
  heap w !! l = Some d ->
  heap w' !! l = Some d.
Proof.
  intros Hrun Hl.
  destruct (wrapper_refines_run self args body params method hdrs w)
    as (out2 & w2 & evs & Hrun2 & _ & Hheap & _).
  rewrite Hrun in Hrun2. injection Hrun2 as <- <-.
  eapply lookup_weaken; eauto.
Qed.

(** *** The claims on concrete calls *)

(** C1 on a call whose third attempt succeeds. *)
Lemma attempts_bounded_and_success_returned_witness :
  exists out w' evs,
    _wrapper Samples.client [] None None GET None
      (Samples.world_of (Samples.switch_at 2 Samples.server_error Samples.ok_response))
      = Some (out, w') /\
    trace w' = [] ++ evs /\
    (Z.of_nat (count is_request evs) <= 3 + 1)%Z /\
    forall rq res v,
      In (ERequest rq res) evs -> executor_output res = Returned v -> out = Returned v.
Proof.
  apply (attempts_bounded_and_success_returned Samples.client [] None None GET None
           (Samples.world_of (Samples.switch_at 2 Samples.server_error Samples.ok_response))).
  vm_compute. discriminate.
Defined.

(** C2 on a client that never retries and a server that answers 500. *)
Lemma final_failure_sleeps_then_reraises_witness :
  exists r,
    (sleep_error (backoff_for Samples.client_no_retry 0 r (HTTPError Samples.server_error)) = None /\
     [ERandom 0; ESleep (backoff_for Samples.client_no_retry 0 0 (HTTPError Samples.server_error))]
       = [ERandom r; ESleep (backoff_for Samples.client_no_retry 0 r (HTTPError Samples.server_error))] /\
     @Raised JSON (HTTPError Samples.server_error) = Raised (HTTPError Samples.server_error)) \/
    (exists e',
       sleep_error (backoff_for Samples.client_no_retry 0 r (HTTPError Samples.server_error)) = Some e' /\
       [ERandom 0; ESleep (backoff_for Samples.client_no_retry 0 0 (HTTPError Samples.server_error))]
         = [ERandom r] /\
       @Raised JSON (HTTPError Samples.server_error) = Raised e').
Proof.
  apply (final_failure_sleeps_then_reraises Samples.client_no_retry [] None None GET None
           (Samples.world_of (Samples.always Samples.server_error))
           (Samples.after_call Samples.client_no_retry (Samples.always Samples.server_error))
           (Raised (HTTPError Samples.server_error))
           []
           (request_of Samples.client_no_retry [] None None GET ∅)
           (NetResponse Samples.server_error)
           [ERandom 0; ESleep (backoff_for Samples.client_no_retry 0 0 (HTTPError Samples.server_error))]
           (HTTPError Samples.server_error)).
  - vm_compute. reflexivity.
  - vm_compute. reflexivity.
  - reflexivity.
  - reflexivity.
  - reflexivity.
Defined.

(** C2 as stated fails: after the failure of the last attempt the call
    sleeps once more before it raises.  Here [max_retries] is 0, the
    only attempt is answered 500, and one sleep follows it. *)
Lemma sleep_between_final_failure_and_raise :
  match _wrapper Samples.client_no_retry [] None None GET None
          (Samples.world_of (Samples.always Samples.server_error)) with
  | Some (out, w') =>
      out = Raised (HTTPError Samples.server_error) /\
      count is_request (trace w') = 1%nat /\
      count is_sleep (after_last_request (trace w')) = 1%nat
  | None => False
  end.
Proof. vm_compute. auto. Qed.

(** C3 on a 404 answer. *)
Lemma fatal_status_raised_at_once_witness :
  exists w',
    _wrapper Samples.client [] None None GET None
      (Samples.world_of (Samples.always Samples.not_found))
      = Some (Raised (HTTPError Samples.not_found), w') /\
    trace w' = [] ++ [ERequest (request_of Samples.client [] None None GET ∅)
                        (NetResponse Samples.not_found)].
Proof.
  apply (fatal_status_raised_at_once Samples.client [] None None GET None
           (Samples.world_of (Samples.always Samples.not_found)) Samples.not_found).
  - vm_compute. discriminate.
  - reflexivity.
  - unfold Samples.not_found, Samples.response_of. cbn [status_code]. lia.
  - unfold Samples.not_found, Samples.response_of, Samples.client, __init__,
      DEFAULT_RETRIABLE_HTTP_CODES.
    cbn [status_code _retriable_http_codes].
    rewrite !not_elem_of_union, !not_elem_of_singleton. repeat split; lia.
Defined.

(** C10 on the default client, whose every attempt is answered 500, and
    on a client whose [max_retries] is [-1]. *)
Lemma assertion_holds_iff_budget_nonnegative_witness :
  (exists out w' evs,
     _wrapper Samples.client [] None None GET None
       (Samples.world_of (Samples.always Samples.server_error)) = Some (out, w') /\
     trace w' = [] ++ evs /\
     (1 <= count is_request evs)%nat /\
     out ≠ Raised AssertionError /\
     (forall pre rq res r d,
         evs = pre ++ [ERequest rq res; ERandom r; ESleep d] ->
         exists e,
           executor_output res = Raised e /\ retriable Samples.client e = true /\
           out = Raised e)) /\
  _wrapper Samples.client_negative_budget [] None None GET None
    (Samples.world_of (Samples.always Samples.ok_response))
    = Some (Raised AssertionError, Samples.world_of (Samples.always Samples.ok_response)).
Proof.
  split.
  - apply (proj1 (assertion_holds_iff_budget_nonnegative Samples.client
                    [] None None GET None
                    (Samples.world_of (Samples.always Samples.server_error)))).
    + vm_compute. discriminate.
    + intros n rq. discriminate.
  - apply (proj2 (proj2 (assertion_holds_iff_budget_nonnegative
                           Samples.client_negative_budget [] None None GET None
                           (Samples.world_of (Samples.always Samples.ok_response))))).
    vm_compute. reflexivity.
Defined.

End Retry.

(** ** The backoff policy *)

Module Backoff.
Import PyStr UrlQuote PyFloat Lib Uberpy Observe.
Local Open Scope Q_scope.

Lemma py_float_empty : py_float "" = None.
Proof. reflexivity. Qed.

(** Without a header the backoff is the exponential one. *)
Lemma backoff_without_hint self a r e :
  hint e = None ->
  backoff_for self a r e = exponential a (uniform 0 (_jitter_max self) r).
Proof.
  unfold backoff_for, hint, honor_retry_after.
  destruct e; try reflexivity. by intros ->.
Qed.

(** The jitter lies between [0] and its bound. *)
Lemma uniform_bounds (j r : Q) :
  0 <= j -> 0 <= r < 1 -> 0 <= uniform 0 j r <= j.
Proof. unfold uniform. intros Hj [Hr0 Hr1]. split; nra. Qed.

Lemma capped_small (a : Z) : (0 <= a <= 4)%Z -> Z.min (2 ^ a) 20 = (2 ^ a)%Z.
Proof.
  intros Ha. apply Z.min_l.
  transitivity (2 ^ 4)%Z; [apply Z.pow_le_mono_r; lia | cbn; lia].
Qed.

Lemma capped_large (a : Z) : (5 <= a)%Z -> Z.min (2 ^ a) 20 = 20%Z.
Proof.
  intros Ha. apply Z.min_r.
  transitivity (2 ^ 5)%Z; [cbn; lia | apply Z.pow_le_mono_r; lia].
Qed.

Lemma capped_nonnegative (a : Z) : (0 <= a)%Z -> 0 <= inject_Z (Z.min (2 ^ a) 20).
Proof.
  intros Ha. change 0 with (inject_Z 0). rewrite <- Zle_Qle.
  apply Z.min_glb; [apply Z.pow_nonneg |]; lia.
Qed.

(** C5.  For an attempt index [a >= 0] and a jitter bound [j >= 0],
    [exponential_backoff], the computation of lines 154 and 167, draws
    once from [random.random()] and gives [min(2^a, 20) + uniform(0, j)],
    which for the draw [r] is [min(2^a, 20) + j * r]: a delay in
    [[2^a, 2^a + j]] for [a] up to 4, in [[20, 20 + j]] from 5 on, and
    never negative.  It is the delay the loop of [_wrapper] hands to
    [sleep] when the attempt number [a] has failed with a retriable
    failure that carries no [Retry-After]. *)
Theorem exponential_delay_bounds (self : Base) (a : Z) (w1 : World) :
  let j := _jitter_max self in
  let r := entropy w1 (count is_random (trace w1)) in
  (0 <= a)%Z ->
  0 <= j ->
  0 <= r < 1 ->
  exists d,
    exponential_backoff self a w1 = (Returned (Finite d), log w1 (ERandom r)) /\
    d == inject_Z (Z.min (2 ^ a) 20) + j * r /\
    0 <= j * r <= j /\
    ((a <= 4)%Z -> inject_Z (2 ^ a) <= d <= inject_Z (2 ^ a) + j) /\
    ((5 <= a)%Z -> 20 <= d <= 20 + j) /\
    0 <= d /\
    (forall args body params method hdrs fuel exception w e,
        _request self args body params method hdrs w = (Raised e, w1) ->
        retriable self e = true ->
        hint e = None ->
        (a <= _max_retries self)%Z ->
        wrapper_loop self args body params method hdrs (S fuel) a exception w =
          match sleep_error (Finite d) with
          | Some e' => Some (Raised e', log w1 (ERandom r))
          | None =>
              wrapper_loop self args body params method hdrs fuel (a + 1) (Some e)
                (log (log w1 (ERandom r)) (ESleep (Finite d)))
          end).
Proof.
  intros j r Ha Hj Hr.
  pose proof (uniform_bounds _ _ Hj Hr) as [Hu0 Hu1].
  pose proof (capped_nonnegative a Ha) as Hcap.
  assert (Hu : uniform 0 j r == j * r) by (unfold uniform; ring).
  exists (inject_Z (Z.min (2 ^ a) 20) + uniform 0 j r).
  split_and!.
  - reflexivity.
  - rewrite Hu. reflexivity.
  - rewrite <- Hu. exact Hu0.
  - rewrite <- Hu. exact Hu1.
  - intros Hsmall. rewrite capped_small by lia. split; lra.
  - intros Hlarge. rewrite capped_large by assumption.
    change (inject_Z 20) with 20. split; lra.
  - lra.
  - intros args body params method hdrs fuel exception w e Hreq Hretry Hhint Hle.
    rewrite Retry.loop_step by assumption.
    rewrite Hreq, Hretry, Retry.pause_run. cbn zeta.
    rewrite backoff_without_hint by assumption.
    fold r. fold j. unfold exponential.
    destruct (sleep_error _); reflexivity.
Qed.

(** C5 on the default client, whose attempt number 1 has lost the
    connection, for a draw of [1/4]. *)
Lemma exponential_delay_bounds_witness :
  exists d,
    exponential_backoff Samples.client 1 Coverage.after_lost_connection =
      (Returned (Finite d), log Coverage.after_lost_connection (ERandom (1 # 4))) /\
    d == inject_Z (Z.min (2 ^ 1) 20) + (1 # 2) * (1 # 4) /\
    inject_Z (2 ^ 1) <= d <= inject_Z (2 ^ 1) + (1 # 2) /\
    0 <= d /\
    wrapper_loop Samples.client [] None None GET None 3 1 None Coverage.quarter_draws =
      match sleep_error (Finite d) with
      | Some e' => Some (Raised e', log Coverage.after_lost_connection (ERandom (1 # 4)))
      | None =>
          wrapper_loop Samples.client [] None None GET None 2 (1 + 1)
            (Some (ConnectionError "down"))
            (log (log Coverage.after_lost_connection (ERandom (1 # 4))) (ESleep (Finite d)))
      end.
Proof.
  destruct (exponential_delay_bounds Samples.client 1 Coverage.after_lost_connection)
    as (d & Hrun & Hd & _ & Hsmall & _ & Hpos & Hloop).
  - vm_compute. discriminate.
  - vm_compute. discriminate.
  - split; vm_compute; [discriminate | reflexivity].
  - exists d. split; [exact Hrun |]. split; [exact Hd |].
    split; [apply Hsmall; vm_compute; discriminate |].
    split; [exact Hpos |].
    apply (Hloop [] None None GET None 2%nat None Coverage.quarter_draws
             (ConnectionError "down")).
    + reflexivity.
    + reflexivity.
    + reflexivity.
    + vm_compute. discriminate.
Defined.

(** C4, as the code has it.  For an HTTP failure: a [Retry-After] header
    that [float] reads gives the delay, as it is and without jitter; a
    header that is missing, or that [float] rejects, leaves the
    exponential backoff.  The delay is not negative as long as the
    header, when it is read, is not. *)
Theorem retry_after_policy (self : Base) (response : Response) (a : Z) (r : Q) :
  let delay := backoff_for self a r (HTTPError response) in
  let fallback := exponential a (uniform 0 (_jitter_max self) r) in
  (forall s v,
      headers_get response "Retry-After" = Some s -> py_float s = Some v -> delay = v) /\
  (headers_get response "Retry-After" = None -> delay = fallback) /\
  (forall s,
      headers_get response "Retry-After" = Some s -> py_float s = None ->
      delay = fallback) /\
  ((0 <= a)%Z -> 0 <= _jitter_max self -> 0 <= r < 1 ->
   (forall s v,
       headers_get response "Retry-After" = Some s -> py_float s = Some v ->
       nonnegative v) ->
   nonnegative delay).
Proof.
  intros delay fallback. subst delay. unfold backoff_for. fold fallback.
  unfold honor_retry_after.
  split_and!.
  - intros s v -> Hv. destruct s; [discriminate |]. cbn [is_empty]. by rewrite Hv.
  - by intros ->.
  - intros s -> Hs. destruct (is_empty s); [reflexivity |]. by rewrite Hs.
  - intros Ha Hj Hr Hhint.
    assert (Hfallback : nonnegative fallback).
    { subst fallback. cbn.
      pose proof (uniform_bounds _ _ Hj Hr). pose proof (capped_nonnegative a Ha). lra. }
    destruct (headers_get response "Retry-After") as [s|]; [| exact Hfallback].
    destruct (is_empty s); [exact Hfallback |].
    destruct (py_float s) as [v|] eqn:Hv; [| exact Hfallback].
    eapply Hhint; eauto.
Qed.

(** C4 on a 429 answer with [Retry-After: 7]. *)
Lemma retry_after_policy_witness :
  backoff_for Samples.client 2 (1 # 4) (HTTPError Samples.seven_seconds) = Finite 7.
Proof.
  apply (proj1 (retry_after_policy Samples.client Samples.seven_seconds 2 (1 # 4)) "7").
  - reflexivity.
  - reflexivity.
Defined.

(** C4 as stated fails on a negative header: [Retry-After: -5] on a
    retriable 429 gives the delay [-5]. *)
Lemma negative_retry_after_gives_negative_delay :
  retriable Samples.client (HTTPError Samples.negative_hint) = true /\
  backoff_for Samples.client 0 0 (HTTPError Samples.negative_hint) = Finite (-5) /\
  ~ nonnegative (backoff_for Samples.client 0 0 (HTTPError Samples.negative_hint)).
Proof.
  split; [reflexivity |]. split; [reflexivity |].
  change (~ (0 <= -5)). intros H. by vm_compute in H.
Qed.

(** A [Retry-After: 7] on a 429 answer makes the call sleep seven
    seconds, not the exponential delay. *)
Lemma retry_after_seven_is_slept :
  match _wrapper Samples.client_no_retry [] None None GET None
          (Samples.world_of (Samples.always Samples.seven_seconds)) with
  | Some (out, w') =>
      out = Raised (HTTPError Samples.seven_seconds) /\
      List.filter is_sleep (trace w') = [ESleep (Finite 7)]
  | None => False
  end.
Proof. vm_compute. auto. Qed.

(** With that answer [sleep] refuses the delay, and the call ends in its
    [ValueError] after a single request. *)
Lemma negative_retry_after_makes_sleep_raise :
  match _wrapper Samples.client [] None None GET None
          (Samples.world_of (Samples.always Samples.negative_hint)) with
  | Some (out, w') => out = Raised ValueError /\ count is_request (trace w') = 1%nat
  | None => False
  end.
Proof. vm_compute. auto. Qed.

End Backoff.

(** ** The URL builder *)

Module UrlBuild.
Import PyStr UrlQuote PyFloat Lib Uberpy Observe.

(** With no segment the URL is the root without its trailing
    separators. *)
Lemma build_url_no_args root : build_url root [] = rstrip "/" root.
Proof. reflexivity. Qed.

Lemma mem_append c s1 s2 : mem c (s1 +:+ s2) = mem c s1 || mem c s2.
Proof.
  induction s1 as [|d s1 IH]; [reflexivity |].
  change (String d s1 +:+ s2) with (String d (s1 +:+ s2)). cbn [mem].
  destruct (Ascii.eqb c d); [reflexivity | exact IH].
Qed.

Lemma quoted_char_hides_separator c :
  mem "/" (if always_safe c || mem c "" then String c EmptyString else percent c) = false.
Proof. destruct c as [[] [] [] [] [] [] [] []]; reflexivity. Qed.

(** A quoted segment holds no separator. *)
Lemma quote_hides_separator s : mem "/" (quote s "") = false.
Proof.
  induction s as [|c s IH]; [reflexivity |].
  cbn [quote]. rewrite mem_append, IH, quoted_char_hides_separator. reflexivity.
Qed.

Lemma append_empty_r s : s +:+ "" = s.
Proof.
  induction s as [|c s IH]; [reflexivity |].
  change (String c s +:+ "") with (String c (s +:+ "")). by rewrite IH.
Qed.

Lemma join_cons sep x l :
  join sep (x :: l) = x +:+ fold_right (fun y acc => sep +:+ y +:+ acc) "" l.
Proof.
  revert x. induction l as [|y l IH]; intros x.
  - cbn [join fold_right]. by rewrite append_empty_r.
  - change (join sep (x :: y :: l)) with (x +:+ sep +:+ join sep (y :: l)).
    by rewrite IH.
Qed.

(** The URL is the right-stripped root followed, for each segment, by one
    separator and the quoted segment. *)
Lemma build_url_shape root args :
  build_url root args = rstrip "/" root +:+ path_suffix args.
Proof.
  unfold build_url. rewrite join_cons. f_equal.
  induction args as [|arg args IH]; [reflexivity |].
  cbn [map fold_right path_suffix]. by rewrite IH.
Qed.

(** The roots a client has begin with the scheme: stripping separators on
    their left changes nothing. *)
Lemma api_root_has_no_leading_separator version customer_id :
  lstrip "/" (BASE_URL version customer_id) = BASE_URL version customer_id.
Proof. reflexivity. Qed.

Lemma quote_nonempty s : s ≠ "" -> quote s "" ≠ "".
Proof.
  destruct s as [|c s]; [done |]. intros _. cbn [quote].
  destruct (always_safe c || mem c ""); discriminate.
Qed.

Lemma double_separator_skip q rest :
  mem "/" q = false -> double_separator (q +:+ rest) = double_separator rest.
Proof.
  induction q as [|c q IH]; [reflexivity |].
  cbn [mem]. destruct (Ascii.eqb_spec "/" c) as [|Hc]; [discriminate |]. intros Hq.
  change (String c q +:+ rest) with (String c (q +:+ rest)). cbn [double_separator].
  rewrite (IH Hq).
  destruct (Ascii.eqb_spec c "/") as [->|_]; [done |].
  by destruct (q +:+ rest).
Qed.

(** As long as no segment is empty once stripped, the appended path never
    has two separators side by side: there is exactly one before each
    segment, and the segments hold none. *)
Lemma nonempty_segments_give_single_separators args :
  Forall (fun arg => strip "/" (str arg) ≠ "") args ->
  double_separator (path_suffix args) = false.
Proof.
  induction 1 as [|arg args Harg _ IH]; [reflexivity |].
  cbn [path_suffix].
  pose proof (quote_nonempty _ Harg) as Hne.
  pose proof (quote_hides_separator (strip "/" (str arg))) as Hfree.
  destruct (quote (strip "/" (str arg)) "") as [|c q] eqn:Hq; [done |].
  change ("/" +:+ String c q +:+ path_suffix args)
    with (String "/" (String c (q +:+ path_suffix args))).
  cbn [mem] in Hfree. destruct (Ascii.eqb_spec "/" c) as [|Hc]; [discriminate |].
  cbn [double_separator].
  destruct (Ascii.eqb_spec c "/") as [->|_]; [done |].
  rewrite double_separator_skip by assumption. rewrite IH.
  by destruct (q +:+ path_suffix args).
Qed.

(** C6 fails on a segment that is empty once stripped: the join puts a
    separator on each side of it.  The segments [""] and ["x"] give a URL
    with two separators in a row, against the comment of [_request]
    that announces a join without double slashes. *)
Theorem empty_segment_gives_double_separator :
  build_url (_api_root Samples.client) [UStr ""; UStr "x"]
    = "https://api.uber.com/v1/customers/c//x" /\
  build_url (_api_root Samples.client) [UStr "deliveries"; UStr "/"]
    = "https://api.uber.com/v1/customers/c/deliveries/".
Proof. split; reflexivity. Qed.

End UrlBuild.

(** ** The token fetcher *)

Module Token.
Import PyStr UrlQuote PyFloat Lib Uberpy Observe.





End Token.


(** ** Whole calls: what every attempt sends, and how a call ends *)

Module Calls.
Import PyStr UrlQuote PyFloat Lib Uberpy Observe Coverage.

Section Events.
Variables (self : Base) (args : list URL) (body : option Body)
  (params : option Params) (method : Method) (hdrs : option loc).

Local Abbreviation max := (_max_retries self).
Local Abbreviation loop := (wrapper_loop self args body params method hdrs).
Local Abbreviation wrapper := (_wrapper self args body params method hdrs).

(** A caller's mapping that is an object of the heap reads the same in any
    larger heap. *)
Lemma caller_headers_stable (w w' : World) :
  headers_allocated w hdrs ->
  heap w ⊆ heap w' ->
  caller_headers w' hdrs = caller_headers w hdrs /\ headers_allocated w' hdrs.
Proof.
  unfold headers_allocated, caller_headers.
  destruct hdrs as [l|]; [| auto].
  intros [d Hd] Hsub.
  pose proof (lookup_weaken _ _ _ _ Hd Hsub) as Hd'.
  rewrite Hd, Hd'. eauto.
Qed.

(** The events of the loop: every request is the request of the call and
    is answered by the transport, every draw comes from the generator. *)
Lemma loop_events fuel :
  forall retries exception w out w',
    headers_allocated w hdrs ->
    loop fuel retries exception w = Some (out, w') ->
    exists evs,
      trace w' = trace w ++ evs /\
      Forall (produced_in w (request_of self args body params method
                               (caller_headers w hdrs))) evs.
Proof.
  induction fuel as [|fuel IH]; intros retries exception w out w' Halloc Hrun;
    destruct (Z.leb_spec retries max) as [Hle|Hgt];
    try (rewrite Retry.loop_exit in Hrun by assumption;
         injection Hrun as <- <-; exists []; by rewrite app_nil_r).
  - cbn [wrapper_loop] in Hrun.
    destruct (Z.leb_spec retries max); [discriminate | lia].
  - rewrite Retry.loop_step in Hrun by assumption.
    rewrite Executor.request_run in Hrun.
    set (rq := request_of _ _ _ _ _ _) in *.
    set (res := network w _ rq) in *.
    set (w1 := log _ _) in *.
    assert (Hreq : produced_in w rq (ERequest rq res))
      by (split; [reflexivity | eexists; reflexivity]).
    destruct (executor_output res) as [v|e].
    { injection Hrun as <- <-. exists [ERequest rq res]. split; [reflexivity |].
      constructor; [exact Hreq | constructor]. }
    destruct (retriable self e).
    2:{ injection Hrun as <- <-. exists [ERequest rq res]. split; [reflexivity |].
        constructor; [exact Hreq | constructor]. }
    rewrite Retry.pause_run in Hrun. cbn zeta in Hrun.
    set (r := entropy w1 _) in *.
    assert (Hdraw : produced_in w rq (ERandom r)) by (eexists; reflexivity).
    destruct (sleep_error (backoff_for self retries r e)) as [e'|].
    { injection Hrun as <- <-. exists [ERequest rq res; ERandom r].
      split; [cbn; by rewrite <- app_assoc |].
      constructor; [exact Hreq | constructor; [exact Hdraw | constructor]]. }
    set (w2 := log (log w1 (ERandom r)) (ESleep _)) in *.
    assert (Hsub : heap w ⊆ heap w2)
      by (apply insert_subseteq, Executor.fresh_loc_unused).
    destruct (caller_headers_stable w w2 Halloc Hsub) as [Hsame Halloc2].
    destruct (IH _ _ _ _ _ Halloc2 Hrun) as (evs & Htr & Hall).
    rewrite Hsame in Hall. fold rq in Hall.
    exists (ERequest rq res :: ERandom r :: ESleep (backoff_for self retries r e) :: evs).
    split; [rewrite Htr; cbn; by rewrite <- !app_assoc |].
    repeat (constructor; [first [exact Hreq | exact Hdraw | exact I] |]).
    exact Hall.
Qed.

(** X1.  Every attempt of a call sends the same request: the method, the
    URL, the body, the parameters, the timeout and the headers of each
    request of the call are those computed from the arguments and from the
    entries the caller's mapping had when the call began. *)
Theorem every_attempt_sends_the_same_request (w w' : World) out evs :
  headers_allocated w hdrs ->
  wrapper w = Some (out, w') ->
  trace w' = trace w ++ evs ->
  forall rq res,
    In (ERequest rq res) evs ->
    rq = request_of self args body params method (caller_headers w hdrs).
Proof.
  intros Halloc Hrun Htr rq res Hin.
  destruct (loop_events _ _ _ _ _ _ Halloc Hrun) as (evs' & Htr' & Hall).
  rewrite Htr in Htr'. apply app_inv_head in Htr'. subst evs'.
  rewrite List.Forall_forall in Hall. by destruct (Hall _ Hin).
Qed.

End Events.

(** *** Runs of the state machine, continued *)

Section Outcomes.
Variable self : Base.
Local Abbreviation max := (_max_retries self).
Local Open Scope Q_scope.

(** The exponential backoff is a time [sleep] takes, at most the cap and
    the jitter bound. *)
Lemma exponential_within (a : Z) (r : Q) :
  (0 <= a)%Z -> 0 <= _jitter_max self -> 0 <= r < 1 ->
  exists q, exponential a (uniform 0 (_jitter_max self) r) = Finite q /\
            0 <= q <= longest_backoff self.
Proof.
  intros Ha Hj Hr. eexists. split; [reflexivity |].
  pose proof (Backoff.uniform_bounds _ _ Hj Hr) as [Hu0 Hu1].
  pose proof (Backoff.capped_nonnegative a Ha) as Hcap.
  assert (Hle : inject_Z (Z.min (2 ^ a) 20) <= 20).
  { change 20 with (inject_Z 20). rewrite <- Zle_Qle. apply Z.le_min_r. }
  unfold longest_backoff. split; lra.
Qed.

Lemma finite_sleepable (q bound : Q) :
  0 <= q <= bound -> nanoseconds bound < two_63 -> sleep_error (Finite q) = None.
Proof.
  intros [Hq0 Hq1] Hbound. unfold sleep_error, is_negative.
  assert (H9 : 0 <= inject_Z (10 ^ 9)) by (vm_compute; discriminate).
  assert (Hns : 0 <= nanoseconds q <= nanoseconds bound).
  { unfold nanoseconds. split; [by apply Qmult_le_0_compat |].
    by apply Qmult_le_compat_r. }
  assert (H63 : 0 <= two_63) by (vm_compute; discriminate).
  destruct (Qle_bool (- two_63) (nanoseconds q)) eqn:Hlow.
  2:{ assert (Qle_bool (- two_63) (nanoseconds q) = true)
        by (apply Qle_bool_iff; lra). congruence. }
  destruct (Qle_bool two_63 (nanoseconds q)) eqn:Hhigh.
  { apply Qle_bool_iff in Hhigh. lra. }
  cbn [negb orb].
  assert (Qle_bool 0 q = true) as -> by (by apply Qle_bool_iff).
  reflexivity.
Qed.

Lemma exponential_sleepable (a : Z) (r : Q) :
  (0 <= a)%Z -> jitter_sleepable self -> 0 <= r < 1 ->
  sleep_error (exponential a (uniform 0 (_jitter_max self) r)) = None.
Proof.
  intros Ha [Hj Hbound] Hr.
  destruct (exponential_within a r Ha Hj Hr) as (q & -> & Hq).
  eapply finite_sleepable; eauto.
Qed.

(** A run never sleeps more often than it draws, nor draws more often
    than it sends. *)
Lemma run_sleeps_le_requests retries exception evs out :
  Run self retries exception evs out ->
  (count is_sleep evs <= count is_random evs <= count is_request evs)%nat.
Proof.
  induction 1; rewrite ?Retry.count_cons; cbn [is_sleep is_random is_request];
    unfold count in *; cbn [List.filter List.length] in *; lia.
Qed.

(** A run that returns a value ends with the attempt that gave it; each
    attempt before it failed with a retriable failure and was slept on. *)
Lemma run_returned retries exception evs v :
  Run self retries exception evs (Returned v) ->
  exists pre rq res,
    evs = pre ++ [ERequest rq res] /\
    executor_output res = Returned v /\
    count is_sleep pre = count is_request pre /\
    forall rq' res',
      In (ERequest rq' res') pre ->
      exists e, executor_output res' = Raised e /\ retriable self e = true.
Proof.
  intros HR. remember (Returned v) as out eqn:Hout.
  induction HR as [retries exception Hgt
                  |retries exception rq0 res0 v0 Hle Hv
                  |retries exception rq0 res0 e0 Hle He0 Hfatal
                  |retries exception rq0 res0 e0 r e' Hle He0 Hretry Hsleep
                  |retries exception rq0 res0 e0 r evs out Hle He0 Hretry Hsleep HR IH];
    try discriminate.
  - by destruct exception.
  - injection Hout as ->. exists [], rq0, res0. split_and!; auto.
    intros ? ? [].
  - destruct (IH Hout) as (pre & rq & res & -> & Hv & Hcount & Hpre).
    exists (ERequest rq0 res0 :: ERandom r :: ESleep (backoff_for self retries r e0) :: pre),
      rq, res.
    split_and!; auto.
    + rewrite !Retry.count_cons. cbn [is_sleep is_request]. lia.
    + intros rq' res' [[= <- <-]|[[=]|[[=]|Hin]]]; eauto.
Qed.

(** An attempt that fails with a failure the loop does not retry ends the
    run, with that failure. *)
Lemma run_unhandled_failure retries exception evs out :
  Run self retries exception evs out ->
  forall pre rq res post e,
    evs = pre ++ ERequest rq res :: post ->
    executor_output res = Raised e ->
    retriable self e = false ->
    post = [] /\ out = Raised e.
Proof.
  induction 1 as [retries exception Hgt
                 |retries exception rq0 res0 v Hle Hv
                 |retries exception rq0 res0 e0 Hle He0 Hfatal
                 |retries exception rq0 res0 e0 r e' Hle He0 Hretry Hsleep
                 |retries exception rq0 res0 e0 r evs out Hle He0 Hretry Hsleep HR IH];
    intros pre rq res post e Hevs He Hfat.
  - by destruct pre.
  - destruct pre as [|? [|? ?]]; simplify_eq/=. congruence.
  - destruct pre as [|? [|? ?]]; simplify_eq/=. split; congruence.
  - destruct pre as [|? [|? [|? ?]]]; simplify_eq/=. congruence.
  - destruct pre as [|ev0 [|ev1 [|ev2 pre]]]; simplify_eq/=.
    + congruence.
    + eapply IH; eauto.
Qed.

(** Without [Retry-After] headers and with draws in range, every sleep of
    a run is an exponential backoff within its bound. *)
Lemma run_sleeps_bounded retries exception evs out :
  Run self retries exception evs out ->
  (0 <= retries)%Z ->
  0 <= _jitter_max self ->
  (forall rq res e, In (ERequest rq res) evs ->
                    executor_output res = Raised e -> hint e = None) ->
  (forall r, In (ERandom r) evs -> 0 <= r < 1) ->
  Forall (sleep_within (longest_backoff self)) evs.
Proof.
  intros HR. induction HR as [retries exception Hgt
                  |retries exception rq0 res0 v0 Hle Hv
                  |retries exception rq0 res0 e0 Hle He0 Hfatal
                  |retries exception rq0 res0 e0 r e' Hle He0 Hretry Hsleep
                  |retries exception rq0 res0 e0 r evs out Hle He0 Hretry Hsleep HR IH];
    intros Hretries Hj Hhint Hdraw.
  - constructor.
  - by repeat constructor.
  - by repeat constructor.
  - by repeat constructor.
  - constructor; [exact I |]. constructor; [exact I |]. constructor.
    + rewrite Backoff.backoff_without_hint by (eapply Hhint; [left; reflexivity | eauto]).
      destruct (exponential_within retries r Hretries Hj) as (q & -> & Hq).
      { apply Hdraw. right. by left. }
      exact Hq.
    + apply IH; [lia | assumption | |].
      * intros rq res e Hin. apply (Hhint rq res e). by do 3 right.
      * intros r' Hin. apply Hdraw. by do 3 right.
Qed.

(** Under the same conditions, when [sleep] takes the longest backoff, a
    run that makes an attempt ends with the output of its last attempt. *)
Lemma run_outcome_is_last_output retries exception evs out :
  Run self retries exception evs out ->
  (0 <= retries <= max)%Z ->
  jitter_sleepable self ->
  (forall rq res e, In (ERequest rq res) evs ->
                    executor_output res = Raised e -> hint e = None) ->
  (forall r, In (ERandom r) evs -> 0 <= r < 1) ->
  exists pre rq res post,
    evs = pre ++ ERequest rq res :: post /\
    existsb is_request post = false /\
    executor_output res = out.
Proof.
  intros HR. induction HR as [retries exception Hgt
                  |retries exception rq0 res0 v0 Hle Hv
                  |retries exception rq0 res0 e0 Hle He0 Hfatal
                  |retries exception rq0 res0 e0 r e' Hle He0 Hretry Hsleep
                  |retries exception rq0 res0 e0 r evs out Hle He0 Hretry Hsleep HR IH];
    intros Hretries Hjit Hhint Hdraw.
  - lia.
  - by exists [], rq0, res0, [].
  - by exists [], rq0, res0, [].
  - rewrite Backoff.backoff_without_hint in Hsleep
      by (eapply Hhint; [left; reflexivity | eauto]).
    rewrite exponential_sleepable in Hsleep; [discriminate | lia | assumption |].
    apply Hdraw. right. by left.
  - destruct (Z.leb_spec (retries + 1) max) as [Hnext|Hlast].
    + destruct IH as (pre & rq & res & post & -> & Hpost & Hres);
        [lia | assumption | | |].
      * intros rq res e Hin. apply (Hhint rq res e). by do 3 right.
      * intros r' Hin. apply Hdraw. by do 3 right.
      * exists (ERequest rq0 res0 :: ERandom r :: ESleep (backoff_for self retries r e0) :: pre),
          rq, res, post. auto.
    + destruct (Retry.run_past_budget _ _ _ _ _ HR) as [-> ->]; [lia |].
      exists [], rq0, res0, [ERandom r; ESleep (backoff_for self retries r e0)].
      auto.
Qed.

(** When every attempt is answered by a failure of the connection, the run
    uses every iteration that remains, sleeps after each and ends with the
    last failure. *)
Lemma run_all_down retries exception evs out :
  Run self retries exception evs out ->
  (0 <= retries)%Z ->
  jitter_sleepable self ->
  (forall rq res, In (ERequest rq res) evs ->
                  exists e, res = NetRaise e /\ connection_failure e = true) ->
  (forall r, In (ERandom r) evs -> 0 <= r < 1) ->
  Z.of_nat (count is_request evs) = Z.max 0 (max + 1 - retries) /\
  count is_sleep evs = count is_request evs /\
  ((retries <= max)%Z ->
   exists pre rq e r d,
     evs = pre ++ [ERequest rq (NetRaise e); ERandom r; ESleep d] /\
     connection_failure e = true /\
     out = Raised e).
Proof.
  intros HR. induction HR as [retries exception Hgt
                  |retries exception rq0 res0 v0 Hle Hv
                  |retries exception rq0 res0 e0 Hle He0 Hfatal
                  |retries exception rq0 res0 e0 r e' Hle He0 Hretry Hsleep
                  |retries exception rq0 res0 e0 r evs out Hle He0 Hretry Hsleep HR IH];
    intros Hretries Hjit Hdown Hdraw.
  - split_and!; [cbn; lia | reflexivity | lia].
  - destruct (Hdown rq0 res0) as (e & -> & _); [by left | discriminate].
  - destruct (Hdown rq0 res0) as (e & -> & He); [by left |].
    cbn in He0. injection He0 as ->. by destruct e0.
  - destruct (Hdown rq0 res0) as (e & -> & He); [by left |].
    cbn in He0. injection He0 as ->.
    assert (Hh : hint e0 = None) by (by destruct e0).
    rewrite Backoff.backoff_without_hint in Hsleep by assumption.
    rewrite exponential_sleepable in Hsleep; [discriminate | lia | assumption |].
    apply Hdraw. right. by left.
  - destruct (Hdown rq0 res0) as (e & -> & He); [by left |].
    cbn in He0. injection He0 as ->.
    destruct IH as (Hreq & Hsl & Hlast); [lia | assumption | | |].
    { intros rq res Hin. apply (Hdown rq res). by do 3 right. }
    { intros r' Hin. apply Hdraw. by do 3 right. }
    rewrite !Retry.count_cons. cbn [is_sleep is_request].
    split_and!; [lia | lia |].
    intros _. destruct (Z.leb_spec (retries + 1) max) as [Hnext|Hend].
    + destruct (Hlast Hnext) as (pre & rq & e' & r' & d & -> & He' & ->).
      exists (ERequest rq0 (NetRaise e0) :: ERandom r
                :: ESleep (backoff_for self retries r e0) :: pre), rq, e', r', d.
      auto.
    + destruct (Retry.run_past_budget _ _ _ _ _ HR) as [-> ->]; [lia |].
      exists [], rq0, e0, r, (backoff_for self retries r e0). auto.
Qed.

End Outcomes.

(** *** Whole calls *)

Section Wrapped.
Variables (self : Base) (args : list URL) (body : option Body)
  (params : option Params) (method : Method) (hdrs : option loc).

Local Abbreviation max := (_max_retries self).
Local Abbreviation loop := (wrapper_loop self args body params method hdrs).
Local Abbreviation wrapper := (_wrapper self args body params method hdrs).

(** The draws of the loop come from the generator of the world. *)
Lemma loop_draws fuel :
  forall retries exception w out w',
    loop fuel retries exception w = Some (out, w') ->
    exists evs, trace w' = trace w ++ evs /\ Forall (drawn_in w) evs.
Proof.
  induction fuel as [|fuel IH]; intros retries exception w out w' Hrun;
    destruct (Z.leb_spec retries max) as [Hle|Hgt];
    try (rewrite Retry.loop_exit in Hrun by assumption;
         injection Hrun as <- <-; exists []; by rewrite app_nil_r).
  - cbn [wrapper_loop] in Hrun.
    destruct (Z.leb_spec retries max); [discriminate | lia].
  - rewrite Retry.loop_step in Hrun by assumption.
    rewrite Executor.request_run in Hrun.
    set (rq := request_of _ _ _ _ _ _) in *.
    set (res := network w _ rq) in *.
    set (w1 := log _ _) in *.
    destruct (executor_output res) as [v|e].
    { injection Hrun as <- <-. exists [ERequest rq res]. split; [reflexivity |].
      constructor; [exact I | constructor]. }
    destruct (retriable self e).
    2:{ injection Hrun as <- <-. exists [ERequest rq res]. split; [reflexivity |].
        constructor; [exact I | constructor]. }
    rewrite Retry.pause_run in Hrun. cbn zeta in Hrun.
    set (r := entropy w1 _) in *.
    assert (Hdraw : drawn_in w (ERandom r)) by (eexists; reflexivity).
    destruct (sleep_error (backoff_for self retries r e)) as [e'|].
    { injection Hrun as <- <-. exists [ERequest rq res; ERandom r].
      split; [cbn; by rewrite <- app_assoc |].
      constructor; [exact I | constructor; [exact Hdraw | constructor]]. }
    destruct (IH _ _ _ _ _ Hrun) as (evs & Htr & Hall).
    exists (ERequest rq res :: ERandom r :: ESleep (backoff_for self retries r e) :: evs).
    split; [rewrite Htr; cbn; by rewrite <- !app_assoc |].
    repeat (constructor; [first [exact Hdraw | exact I] |]).
    exact Hall.
Qed.

(** What is known of the events of a finished call. *)
Lemma call_facts (w w' : World) out evs :
  wrapper w = Some (out, w') ->
  trace w' = trace w ++ evs ->
  Run self 0 None evs out /\
  Forall (answered_by (network w)) evs /\
  Forall (drawn_in w) evs /\
  heap w ⊆ heap w'.
Proof.
  intros Hrun Htr.
  destruct (Retry.wrapper_refines_run self args body params method hdrs w)
    as (out2 & w2 & evs2 & Hrun2 & Htr2 & Hheap & Hans & HR).
  rewrite Hrun in Hrun2. injection Hrun2 as <- <-.
  rewrite Htr in Htr2. apply app_inv_head in Htr2. subst evs2.
  destruct (loop_draws _ _ _ _ _ _ Hrun) as (evs3 & Htr3 & Hdraws).
  rewrite Htr in Htr3. apply app_inv_head in Htr3. subst evs3.
  auto.
Qed.

Lemma hints_of_events (w : World) evs :
  no_hints w ->
  Forall (answered_by (network w)) evs ->
  forall rq res e, In (ERequest rq res) evs ->
                   executor_output res = Raised e -> hint e = None.
Proof.
  intros Hno Hans rq res e Hin He.
  rewrite List.Forall_forall in Hans. destruct (Hans _ Hin) as [n ->]. eauto.
Qed.

Lemma draws_of_events (w : World) evs :
  draws_in_range w ->
  Forall (drawn_in w) evs ->
  forall r, In (ERandom r) evs -> (0 <= r < 1)%Q.
Proof.
  intros Hrange Hdraws r Hin.
  rewrite List.Forall_forall in Hdraws. destruct (Hdraws _ Hin) as [n ->]. apply Hrange.
Qed.

(** X2.  A call that returns a value returns right after the attempt that
    gave it: that attempt is the last event of the call, every attempt
    before it failed with a retriable failure, and the call slept exactly
    once per failed attempt. *)
Theorem success_ends_the_call (w w' : World) (v : JSON) :
  wrapper w = Some (Returned v, w') ->
  exists pre rq res,
    trace w' = trace w ++ pre ++ [ERequest rq res] /\
    executor_output res = Returned v /\
    count is_sleep pre = count is_request pre /\
    forall rq' res',
      In (ERequest rq' res') pre ->
      exists e, executor_output res' = Raised e /\ retriable self e = true.
Proof.
  intros Hrun.
  destruct (Retry.wrapper_refines_run self args body params method hdrs w)
    as (out2 & w2 & evs & Hrun2 & Htr & _ & _ & HR).
  rewrite Hrun in Hrun2. injection Hrun2 as <- <-.
  destruct (run_returned self _ _ _ _ HR) as (pre & rq & res & -> & Hv & Hcount & Hpre).
  exists pre, rq, res. auto.
Qed.

(** X3.  When the transport fails every call with a [ConnectionError] or a
    [Timeout], and the random draws are in range and the jitter bound one
    that [sleep] takes, a call with [max_retries >= 0] makes exactly
    [max_retries + 1] attempts, sleeps after each of them, and raises the
    failure of the last attempt, whatever the retriable status codes
    are. *)
Theorem connection_failures_use_the_whole_budget (w : World) :
  (0 <= max)%Z ->
  jitter_sleepable self ->
  draws_in_range w ->
  (forall n rq, exists e, network w n rq = NetRaise e /\ connection_failure e = true) ->
  exists e w' pre rq r d,
    wrapper w = Some (Raised e, w') /\
    trace w' = trace w ++ pre ++ [ERequest rq (NetRaise e); ERandom r; ESleep d] /\
    connection_failure e = true /\
    Z.of_nat (count is_request pre) = max /\
    count is_sleep pre = count is_request pre.
Proof.
  intros Hmax Hjit Hrange Hdown.
  destruct (Retry.wrapper_refines_run self args body params method hdrs w)
    as (out & w' & evs & Hrun & Htr & _ & _ & _).
  destruct (call_facts w w' out evs Hrun Htr) as (HR & Hans & Hdraws & _).
  destruct (run_all_down self 0 None evs out HR) as (Hreq & Hsl & Hlast);
    [lia | assumption | | by eapply draws_of_events |].
  { intros rq res Hin. rewrite List.Forall_forall in Hans.
    destruct (Hans _ Hin) as [n ->]. apply Hdown. }
  destruct Hlast as (pre & rq & e & r & d & -> & He & ->); [lia |].
  exists e, w', pre, rq, r, d.
  rewrite (Retry.count_app is_request) in Hreq.
  rewrite (Retry.count_app is_request), (Retry.count_app is_sleep) in Hsl.
  unfold count in *. cbn [List.filter List.length is_request is_sleep] in Hreq, Hsl.
  split_and!; auto; lia.
Qed.

(** X4.  A failure that neither handler of the loop retries ends the call
    at once, at whatever attempt it occurs: nothing follows the attempt,
    not even a sleep, and the failure itself is raised.  This is so of the
    error of the JSON decoder, of any exception other than the three
    caught, and of an HTTP error whose status is not retriable. *)
Theorem unhandled_failure_ends_the_call (w w' : World) out pre rq res post e :
  wrapper w = Some (out, w') ->
  trace w' = trace w ++ pre ++ ERequest rq res :: post ->
  executor_output res = Raised e ->
  retriable self e = false ->
  post = [] /\ out = Raised e.
Proof.
  intros Hrun Htr He Hfatal.
  destruct (call_facts w w' out _ Hrun Htr) as (HR & _).
  eapply run_unhandled_failure; eauto.
Qed.

(** X5.  When no failure carries a [Retry-After] header, the jitter bound
    is not negative and the random draws are in range, every sleep of a
    call lasts between 0 and [20 + jitter_max] seconds, and the call sleeps
    at most once per attempt. *)
Theorem sleeps_are_bounded_without_hints (w w' : World) out evs :
  (0 <= _jitter_max self)%Q ->
  draws_in_range w ->
  no_hints w ->
  wrapper w = Some (out, w') ->
  trace w' = trace w ++ evs ->
  Forall (sleep_within (longest_backoff self)) evs /\
  (count is_sleep evs <= count is_request evs)%nat.
Proof.
  intros Hj Hrange Hno Hrun Htr.
  destruct (call_facts w w' out evs Hrun Htr) as (HR & Hans & Hdraws & _).
  split.
  - eapply run_sleeps_bounded; eauto using hints_of_events, draws_of_events. lia.
  - pose proof (run_sleeps_le_requests self _ _ _ _ HR). lia.
Qed.

(** X6.  Under the same conditions, when [sleep] takes the longest
    backoff, a call with [max_retries >= 0] ends with the output of its
    last attempt: the value it returned, or the failure it raised. *)
Theorem outcome_is_the_output_of_the_last_attempt (w w' : World) out evs :
  (0 <= max)%Z ->
  jitter_sleepable self ->
  draws_in_range w ->
  no_hints w ->
  wrapper w = Some (out, w') ->
  trace w' = trace w ++ evs ->
  exists pre rq res post,
    evs = pre ++ ERequest rq res :: post /\
    existsb is_request post = false /\
    executor_output res = out.
Proof.
  intros Hmax Hjit Hrange Hno Hrun Htr.
  destruct (call_facts w w' out evs Hrun Htr) as (HR & Hans & Hdraws & _).
  eapply run_outcome_is_last_output;
    eauto using hints_of_events, draws_of_events. lia.
Qed.

(** X7.  A whole call, with all its attempts, leaves the mapping the
    caller passed as it was: the same object holds the same entries when
    the call ends, and so does every object that existed before the
    call. *)
Theorem call_keeps_the_heap (w w' : World) out :
  headers_allocated w hdrs ->
  wrapper w = Some (out, w') ->
  caller_headers w' hdrs = caller_headers w hdrs /\
  forall l d, heap w !! l = Some d -> heap w' !! l = Some d.
Proof.
  intros Halloc Hrun.
  destruct (Retry.wrapper_refines_run self args body params method hdrs w)
    as (out2 & w2 & evs & Hrun2 & _ & Hheap & _).
  rewrite Hrun in Hrun2. injection Hrun2 as <- <-.
  split.
  - by destruct (caller_headers_stable hdrs w w' Halloc Hheap).
  - intros l d Hl. eapply lookup_weaken; eauto.
Qed.

End Wrapped.

(** The fields of the requests of a call that do not depend on the
    headers. *)
Lemma call_request_fields self args body params method hdrs (w w' : World) out evs :
  headers_allocated w hdrs ->
  _wrapper self args body params method hdrs w = Some (out, w') ->
  trace w' = trace w ++ evs ->
  forall rq res,
    In (ERequest rq res) evs ->
    rq_method rq = method /\
    rq_json rq = serialize body /\
    rq_url rq = build_url (_api_root self) args.
Proof.
  intros Halloc Hrun Htr rq res Hin.
  destruct (loop_events _ _ _ _ _ _ _ _ _ _ _ _ Halloc Hrun) as (evs' & Htr' & Hall).
  rewrite Htr in Htr'. apply app_inv_head in Htr'. subst evs'.
  rewrite List.Forall_forall in Hall. destruct (Hall _ Hin) as [-> _]. auto.
Qed.

(** X8.  The five entry points differ by the method and the body only:
    every request of a call through [_get] is a [GET] without a body,
    every request through [_put], [_post] and [_patch] carries that method
    and the serialized body, every request through [_delete] is a
    [DELETE] with the serialized [data], if any; the URL is always the one
    built from the segments. *)
Theorem entry_points_fix_method_and_body self args params hdrs (w w' : World) out evs
    (b : Body) (data : option Body) rq res :
  headers_allocated w hdrs ->
  trace w' = trace w ++ evs ->
  In (ERequest rq res) evs ->
  (_get self args params hdrs w = Some (out, w') ->
   rq_method rq = GET /\ rq_json rq = None /\
   rq_url rq = build_url (_api_root self) args) /\
  (_put self b args params hdrs w = Some (out, w') ->
   rq_method rq = PUT /\ rq_json rq = serialize (Some b) /\
   rq_url rq = build_url (_api_root self) args) /\
  (_post self b args params hdrs w = Some (out, w') ->
   rq_method rq = POST /\ rq_json rq = serialize (Some b) /\
   rq_url rq = build_url (_api_root self) args) /\
  (_patch self b args params hdrs w = Some (out, w') ->
   rq_method rq = PATCH /\ rq_json rq = serialize (Some b) /\
   rq_url rq = build_url (_api_root self) args) /\
  (_delete self data args params hdrs w = Some (out, w') ->
   rq_method rq = DELETE /\ rq_json rq = serialize data /\
   rq_url rq = build_url (_api_root self) args).
Proof.
  intros Halloc Htr Hin.
  unfold _get, _put, _post, _patch, _delete.
  split_and!; intros Hrun;
    exact (call_request_fields _ _ _ _ _ _ _ _ _ _ Halloc Hrun Htr _ _ Hin).
Qed.

(** *** The theorems on concrete calls *)

Lemma sample_draws net : draws_in_range (Samples.world_of net).
Proof. intros n. split; vm_compute; [discriminate | reflexivity]. Qed.

Lemma sample_jitter : jitter_sleepable Samples.client.
Proof. split; vm_compute; [discriminate | reflexivity]. Qed.

Lemma sample_no_hints : no_hints (Samples.world_of (Samples.always Samples.server_error)).
Proof.
  intros n rq e H. vm_compute in H. injection H as <-. reflexivity.
Qed.

(** X1 on a call whose caller passes [Accept: text/html]. *)
Lemma every_attempt_sends_the_same_request_witness :
  request_of Samples.client [] None None GET {[ "Accept" := "text/html" ]}
    = request_of Samples.client [] None None GET
        (caller_headers Samples.world_with_headers (Some 1%positive)).
Proof.
  apply (every_attempt_sends_the_same_request Samples.client [] None None GET
           (Some 1%positive) Samples.world_with_headers
           (call_end Samples.client (Some 1%positive) Samples.world_with_headers)
           (Returned (JList [JInt 1]))
           (trace (call_end Samples.client (Some 1%positive) Samples.world_with_headers))
           ltac:(eexists; vm_compute; reflexivity)
           ltac:(vm_compute; reflexivity)
           eq_refl
           (request_of Samples.client [] None None GET {[ "Accept" := "text/html" ]})
           (NetResponse Samples.ok_response)).
  vm_compute. left. reflexivity.
Defined.

(** X2 on a call whose third attempt succeeds. *)
Lemma success_ends_the_call_witness :
  exists pre rq res,
    trace (Samples.after_call Samples.client
             (Samples.switch_at 2 Samples.server_error Samples.ok_response))
      = [] ++ pre ++ [ERequest rq res] /\
    executor_output res = Returned (JList [JInt 1]) /\
    count is_sleep pre = count is_request pre /\
    forall rq' res',
      In (ERequest rq' res') pre ->
      exists e, executor_output res' = Raised e /\ retriable Samples.client e = true.
Proof.
  apply (success_ends_the_call Samples.client [] None None GET None
           (Samples.world_of (Samples.switch_at 2 Samples.server_error Samples.ok_response))).
  vm_compute. reflexivity.
Defined.

(** X3 on the default client and a transport that is down. *)
Lemma connection_failures_use_the_whole_budget_witness :
  exists e w' pre rq r d,
    _wrapper Samples.client [] None None GET None (Samples.world_of always_down)
      = Some (Raised e, w') /\
    trace w' = [] ++ pre ++ [ERequest rq (NetRaise e); ERandom r; ESleep d] /\
    connection_failure e = true /\
    Z.of_nat (count is_request pre) = 3%Z /\
    count is_sleep pre = count is_request pre.
Proof.
  apply (connection_failures_use_the_whole_budget Samples.client [] None None GET None
           (Samples.world_of always_down)).
  - vm_compute. discriminate.
  - exact sample_jitter.
  - apply sample_draws.
  - intros n rq. eexists. split; reflexivity.
Defined.

(** X4 on a 200 answer whose body is not JSON. *)
Lemma unhandled_failure_ends_the_call_witness :
  @nil Event = [] /\ @Raised JSON JSONDecodeError = Raised JSONDecodeError.
Proof.
  apply (unhandled_failure_ends_the_call Samples.client [] None None GET None
           (Samples.world_of (Samples.always undecodable))
           (Samples.after_call Samples.client (Samples.always undecodable))
           (Raised JSONDecodeError) []
           (request_of Samples.client [] None None GET ∅)
           (NetResponse undecodable) [] JSONDecodeError).
  - vm_compute. reflexivity.
  - vm_compute. reflexivity.
  - reflexivity.
  - reflexivity.
Defined.

(** X5 on the default client and a server that answers 500. *)
Lemma sleeps_are_bounded_without_hints_witness :
  Forall (sleep_within (longest_backoff Samples.client))
    (trace (Samples.after_call Samples.client (Samples.always Samples.server_error))) /\
  (count is_sleep
     (trace (Samples.after_call Samples.client (Samples.always Samples.server_error)))
   <= count is_request
        (trace (Samples.after_call Samples.client (Samples.always Samples.server_error))))%nat.
Proof.
  apply (sleeps_are_bounded_without_hints Samples.client [] None None GET None
           (Samples.world_of (Samples.always Samples.server_error))
           (Samples.after_call Samples.client (Samples.always Samples.server_error))
           (Raised (HTTPError Samples.server_error))).
  - vm_compute. discriminate.
  - apply sample_draws.
  - exact sample_no_hints.
  - vm_compute. reflexivity.
  - reflexivity.
Defined.

(** X6 on the same call. *)
Lemma outcome_is_the_output_of_the_last_attempt_witness :
  exists pre rq res post,
    trace (Samples.after_call Samples.client (Samples.always Samples.server_error))
      = pre ++ ERequest rq res :: post /\
    existsb is_request post = false /\
    executor_output res = Raised (HTTPError Samples.server_error).
Proof.
  apply (outcome_is_the_output_of_the_last_attempt Samples.client [] None None GET None
           (Samples.world_of (Samples.always Samples.server_error))
           (Samples.after_call Samples.client (Samples.always Samples.server_error))).
  - vm_compute. discriminate.
  - exact sample_jitter.
  - apply sample_draws.
  - exact sample_no_hints.
  - vm_compute. reflexivity.
  - reflexivity.
Defined.

(** X7 on a call whose caller passes [Accept: text/html]. *)
Lemma call_keeps_the_heap_witness :
  caller_headers (call_end Samples.client (Some 1%positive) Samples.world_with_headers)
    (Some 1%positive)
    = caller_headers Samples.world_with_headers (Some 1%positive) /\
  forall l d,
    heap Samples.world_with_headers !! l = Some d ->
    heap (call_end Samples.client (Some 1%positive) Samples.world_with_headers) !! l
      = Some d.
Proof.
  apply (call_keeps_the_heap Samples.client [] None None GET (Some 1%positive)
           Samples.world_with_headers
           (call_end Samples.client (Some 1%positive) Samples.world_with_headers)
           (Returned (JList [JInt 1]))).
  - eexists. vm_compute. reflexivity.
  - vm_compute. reflexivity.
Defined.

(** X8 on a [_get] call. *)
Lemma entry_points_fix_method_and_body_witness :
  rq_method (request_of Samples.client [] None None GET ∅) = GET /\
  rq_json (request_of Samples.client [] None None GET ∅) = None /\
  rq_url (request_of Samples.client [] None None GET ∅)
    = build_url (_api_root Samples.client) [].
Proof.
  refine (proj1 (entry_points_fix_method_and_body Samples.client [] None None
                   (Samples.world_of (Samples.always Samples.ok_response))
                   (Samples.after_call Samples.client (Samples.always Samples.ok_response))
                   (Returned (JList [JInt 1]))
                   (trace (Samples.after_call Samples.client
                             (Samples.always Samples.ok_response)))
                   (Dict JNull) None
                   (request_of Samples.client [] None None GET ∅)
                   (NetResponse Samples.ok_response)
                   I eq_refl _) _).
  - vm_compute. left. reflexivity.
  - vm_compute. reflexivity.
Defined.

End Calls.


(** ** Reading the [Retry-After] header *)

Module Hints.
Import PyStr UrlQuote PyFloat Lib Uberpy Observe Coverage.

Lemma digit_is_plain c :
  is_digit c = true ->
  is_space c = false /\ is_underscore c = false /\ lower_char c = c /\
  Ascii.eqb c "-" = false /\ Ascii.eqb c "+" = false /\ Ascii.eqb c "." = false /\
  Ascii.eqb c "i" = false /\ Ascii.eqb c "n" = false /\
  (0 <= digit_value c <= 9)%Z.
Proof.
  destruct c as [[] [] [] [] [] [] [] []]; intros H; try discriminate H;
    vm_compute; repeat split; discriminate.
Qed.

Lemma lstrip_space_keeps l :
  match l with [] => True | c :: _ => is_space c = false end -> lstrip_space l = l.
Proof. destruct l as [|c l]; [reflexivity |]. cbn. by intros ->. Qed.

(** Text that neither begins nor ends with a blank is not stripped. *)
Lemma strip_space_keeps l :
  Forall (fun c => is_space c = false) l -> strip_space l = l.
Proof.
  intros Hl. unfold strip_space.
  rewrite (lstrip_space_keeps l) by (destruct Hl; auto).
  pose proof (List.Forall_rev Hl) as Hrev.
  rewrite (lstrip_space_keeps (rev l)) by (destruct Hrev; auto).
  apply rev_involutive.
Qed.

Lemma drop_underscores_digits l :
  forall prev,
    match prev with Some p => is_underscore p = false | None => True end ->
    Forall (fun c => is_digit c = true) l ->
    drop_underscores prev l = Some l.
Proof.
  induction l as [|c l IH]; intros prev Hprev Hl.
  - cbn. destruct prev as [p|]; [by rewrite Hprev | reflexivity].
  - apply Forall_cons_1 in Hl as [Hc Hl].
    destruct (digit_is_plain c Hc) as (_ & Hu & _).
    cbn [drop_underscores]. rewrite Hu, Hc. cbn [negb].
    rewrite (IH (Some c) Hu Hl).
    destruct prev as [p|]; [rewrite andb_false_r |]; reflexivity.
Qed.

Lemma take_digits_all l :
  Forall (fun c => is_digit c = true) l -> take_digits l = (l, []).
Proof.
  induction 1 as [|c l Hc _ IH]; [reflexivity |].
  cbn [take_digits]. by rewrite Hc, IH.
Qed.

Lemma whole_number_is_itself (v : Z) :
  Qred (inject_Z v * Qpower ten (0 - Z.of_nat (List.length (@nil ascii)))) = inject_Z v.
Proof.
  transitivity (Qred (inject_Z v)).
  - apply Qred_complete.
    change (Qpower ten (0 - Z.of_nat (List.length (@nil ascii)))) with 1%Q.
    apply Qmult_1_r.
  - apply Qcanon.Qred_identity. cbn. apply Z.gcd_1_r.
Qed.

(** [float] reads a run of digits as the number they write. *)
Lemma py_float_digits c l :
  Forall (fun c => is_digit c = true) (c :: l) ->
  py_float (string_of_list_ascii (c :: l))
    = Some (Finite (inject_Z (digits_value (c :: l)))) /\
  py_float (String "-" (string_of_list_ascii (c :: l)))
    = Some (Finite (inject_Z (- digits_value (c :: l)))).
Proof.
  intros Hl.
  assert (Hspace : Forall (fun c => is_space c = false) (c :: l)).
  { eapply Forall_impl; [exact Hl |]. intros a Ha. by destruct (digit_is_plain a Ha). }
  pose proof (Forall_inv Hl) as Hc.
  destruct (digit_is_plain c Hc) as (Hsp & Hu & Hlow & Hminus & Hplus & Hdot & Hi & Hn & _).
  assert (Hdec : decimal (c :: l) = Some (inject_Z (digits_value (c :: l)))).
  { unfold decimal. rewrite (take_digits_all _ Hl). rewrite app_nil_r.
    cbn [take_exponent]. by rewrite whole_number_is_itself. }
  assert (Hinf : is_inf (c :: l) = false).
  { unfold is_inf, lower_chars. cbn [map string_of_list_ascii String.eqb].
    rewrite Hlow, Hi. reflexivity. }
  assert (Hnan : is_nan (c :: l) = false).
  { unfold is_nan, lower_chars. cbn [map string_of_list_ascii String.eqb].
    rewrite Hlow, Hn. reflexivity. }
  split.
  - unfold py_float. rewrite list_ascii_of_string_of_list_ascii.
    rewrite (strip_space_keeps _ Hspace).
    rewrite (drop_underscores_digits _ None I Hl).
    cbn [take_sign]. rewrite Hminus, Hplus, Hinf, Hnan, Hdec. reflexivity.
  - unfold py_float.
    change (list_ascii_of_string (String "-" (string_of_list_ascii (c :: l))))
      with ("-"%char :: list_ascii_of_string (string_of_list_ascii (c :: l))).
    rewrite list_ascii_of_string_of_list_ascii.
    rewrite (strip_space_keeps ("-"%char :: c :: l))
      by (constructor; [reflexivity | exact Hspace]).
    assert (Hdrop : drop_underscores None ("-"%char :: c :: l) = Some ("-"%char :: c :: l)).
    { change (drop_underscores None ("-"%char :: c :: l))
        with (option_map (cons "-"%char) (drop_underscores (Some "-"%char) (c :: l))).
      by rewrite (drop_underscores_digits (c :: l) (Some "-"%char) eq_refl Hl). }
    rewrite Hdrop.
    change (take_sign ("-"%char :: c :: l)) with (true, c :: l).
    cbn iota. rewrite Hinf, Hnan, Hdec. do 2 f_equal.
    change (- inject_Z (digits_value (c :: l)))%Q
      with (inject_Z (- digits_value (c :: l))).
    apply Qcanon.Qred_identity. cbn. apply Z.gcd_1_r.
Qed.

(** The digits of a decimal numeral are digits, and write its value. *)
Lemma uint_digits d :
  Forall (fun c => is_digit c = true) (chars (NilEmpty.string_of_uint d)).
Proof.
  unfold chars. induction d; cbn [NilEmpty.string_of_uint list_ascii_of_string];
    constructor; first [reflexivity | assumption].
Qed.

Lemma uint_value_from d :
  forall acc : positive,
    fold_left (fun a c => 10 * a + digit_value c)%Z
      (chars (NilEmpty.string_of_uint d)) (Zpos acc)
    = Zpos (Pos.of_uint_acc d acc).
Proof.
  unfold chars.
  induction d as [|d IH|d IH|d IH|d IH|d IH|d IH|d IH|d IH|d IH|d IH]; intros acc;
    cbn [NilEmpty.string_of_uint list_ascii_of_string fold_left Pos.of_uint_acc];
    [reflexivity | rewrite <- IH; f_equal; vm_compute digit_value; lia ..].
Qed.

Lemma uint_value d :
  digits_value (chars (NilEmpty.string_of_uint d)) = Z.of_N (Pos.of_uint d).
Proof.
  unfold digits_value, chars.
  induction d as [|d IH|d IH|d IH|d IH|d IH|d IH|d IH|d IH|d IH|d IH];
    cbn [NilEmpty.string_of_uint list_ascii_of_string fold_left Pos.of_uint];
    [reflexivity | exact IH | ..];
    match goal with
    | |- fold_left _ _ ?a = _ =>
        let v := eval vm_compute in a in change a with v
    end;
    apply uint_value_from.
Qed.

Lemma positive_numeral p :
  exists c l,
    NilZero.string_of_uint (Pos.to_uint p) = string_of_list_ascii (c :: l) /\
    Forall (fun c => is_digit c = true) (c :: l) /\
    digits_value (c :: l) = Zpos p.
Proof.
  pose proof (DecimalPos.Unsigned.to_uint_nonnil p) as Hnil.
  pose proof (uint_digits (Pos.to_uint p)) as Hdigits.
  pose proof (uint_value (Pos.to_uint p)) as Hvalue.
  rewrite DecimalPos.Unsigned.of_to in Hvalue.
  assert (Hsame : NilZero.string_of_uint (Pos.to_uint p)
                  = NilEmpty.string_of_uint (Pos.to_uint p))
    by (by destruct (Pos.to_uint p)).
  unfold chars in *.
  destruct (list_ascii_of_string (NilEmpty.string_of_uint (Pos.to_uint p)))
    as [|c l] eqn:Hl.
  - destruct (Pos.to_uint p); first [contradiction | discriminate].
  - exists c, l. split_and!; [| exact Hdigits | exact Hvalue].
    by rewrite Hsame, <- Hl, string_of_list_ascii_of_string.
Qed.

(** X9.  [float] reads the decimal text of an integer back as that
    integer (for integers up to [2^53] in size, which a float holds
    exactly): a [Retry-After] header that holds [str(n)] makes the backoff
    after a retriable HTTP failure exactly [n] seconds, whatever the
    attempt, the jitter bound and the random draw. *)
Theorem integer_hint_is_read_exactly (self : Base) (response : Response) (a : Z) (r : Q)
    (n : Z) :
  (Z.abs n <= 2 ^ 53)%Z ->
  headers_get response "Retry-After" = Some (of_int n) ->
  py_float (of_int n) = Some (Finite (inject_Z n)) /\
  backoff_for self a r (HTTPError response) = Finite (inject_Z n).
Proof.
  intros _ Hhint.
  assert (Hfloat : py_float (of_int n) = Some (Finite (inject_Z n))).
  { unfold of_int. destruct n as [|p|p]; [reflexivity | |];
      destruct (positive_numeral p) as (c & l & Htext & Hdigits & Hvalue);
      cbn [Z.to_int NilZero.string_of_int]; rewrite Htext;
      destruct (py_float_digits c l Hdigits) as [Hpos Hneg].
    - by rewrite Hpos, Hvalue.
    - by rewrite Hneg, Hvalue. }
  split; [exact Hfloat |].
  unfold backoff_for, honor_retry_after. rewrite Hhint, Hfloat.
  destruct (of_int n) eqn:Htext; [discriminate Hfloat | reflexivity].
Qed.

(** X9 on a header of 120 seconds. *)
Lemma integer_hint_is_read_exactly_witness :
  py_float (of_int 120) = Some (Finite (inject_Z 120)) /\
  backoff_for Samples.client 2 (1 # 4)
    (HTTPError (Samples.response_of 429 {[ "retry-after" := "120" ]} "" None))
    = Finite (inject_Z 120).
Proof.
  apply (integer_hint_is_read_exactly Samples.client
           (Samples.response_of 429 {[ "retry-after" := "120" ]} "" None)
           2 (1 # 4) 120).
  - vm_compute. discriminate.
  - reflexivity.
Defined.

Lemma letter_is_plain c :
  is_alpha c = true ->
  is_space c = false /\ is_underscore c = false /\ is_digit c = false /\
  Ascii.eqb c "-" = false /\ Ascii.eqb c "+" = false /\ Ascii.eqb c "." = false.
Proof.
  destruct c as [[] [] [] [] [] [] [] []]; intros H; try discriminate H;
    vm_compute; repeat split; discriminate.
Qed.

Lemma lstrip_space_last l c :
  is_space c = false -> exists u, lstrip_space (l ++ [c]) = u ++ [c].
Proof.
  intros Hc. induction l as [|a l IH].
  - exists []. cbn. by rewrite Hc.
  - cbn [app lstrip_space]. destruct (is_space a); [exact IH |].
    by exists (a :: l).
Qed.

(** Stripping blanks keeps a first character that is not a blank. *)
Lemma strip_space_first c t :
  is_space c = false -> exists t', strip_space (c :: t) = c :: t'.
Proof.
  intros Hc. unfold strip_space. cbn [lstrip_space]. rewrite Hc.
  cbn [rev]. destruct (lstrip_space_last (rev t) c Hc) as [u ->].
  exists (rev u). by rewrite rev_app_distr.
Qed.

(** [float] rejects a text that begins with a letter, unless the letter
    is the first of [inf] or [nan]. *)
Lemma py_float_rejects_words c s :
  is_alpha c = true ->
  Ascii.eqb (lower_char c) "i" = false ->
  Ascii.eqb (lower_char c) "n" = false ->
  py_float (String c s) = None.
Proof.
  intros Hc Hi Hn.
  destruct (letter_is_plain c Hc) as (Hsp & Hu & Hd & Hminus & Hplus & Hdot).
  unfold py_float. cbn [list_ascii_of_string].
  destruct (strip_space_first c (list_ascii_of_string s) Hsp) as [t' ->].
  cbn [drop_underscores]. rewrite Hu.
  destruct (drop_underscores (Some c) t') as [t''|]; [| reflexivity].
  cbn [option_map take_sign]. rewrite Hminus, Hplus.
  unfold is_inf, is_nan, lower_chars. cbn [map string_of_list_ascii String.eqb].
  rewrite Hi, Hn. cbn [orb andb].
  unfold decimal. cbn [take_digits]. rewrite Hd, Hdot. reflexivity.
Qed.

(** X10.  A [Retry-After] header that begins with a letter other than the
    first of [inf] and [nan] is not honoured: the backoff stays the
    exponential one.  The date form of the header, which begins with the
    name of a day, is such a text. *)
Theorem worded_hint_falls_back (self : Base) (response : Response) (a : Z) (r : Q)
    (c : ascii) (s : string) :
  headers_get response "Retry-After" = Some (String c s) ->
  is_alpha c = true ->
  Ascii.eqb (lower_char c) "i" = false ->
  Ascii.eqb (lower_char c) "n" = false ->
  backoff_for self a r (HTTPError response)
    = exponential a (uniform 0 (_jitter_max self) r).
Proof.
  intros Hhint Hc Hi Hn.
  unfold backoff_for, honor_retry_after. rewrite Hhint. cbn [is_empty].
  by rewrite py_float_rejects_words.
Qed.

(** X10 on a date. *)
Lemma worded_hint_falls_back_witness :
  backoff_for Samples.client 1 0
    (HTTPError (Samples.response_of 503
                  {[ "retry-after" := "Wed, 21 Oct 2015 07:28:00 GMT" ]} "" None))
    = exponential 1 (uniform 0 (_jitter_max Samples.client) 0).
Proof.
  apply (worded_hint_falls_back Samples.client
           (Samples.response_of 503
              {[ "retry-after" := "Wed, 21 Oct 2015 07:28:00 GMT" ]} "" None)
           1 0 "W"%char "ed, 21 Oct 2015 07:28:00 GMT");
    reflexivity.
Defined.

(** *** Where a negative delay can come from *)

Lemma lstrip_space_sub l c : In c (lstrip_space l) -> In c l.
Proof.
  induction l as [|a l IH]; [done |].
  cbn [lstrip_space]. destruct (is_space a); [| done]. intros H. right. auto.
Qed.

Lemma strip_space_sub l c : In c (strip_space l) -> In c l.
Proof.
  unfold strip_space. intros H.
  apply in_rev, lstrip_space_sub in H. apply in_rev, lstrip_space_sub in H.
  exact H.
Qed.

Lemma drop_underscores_sub l :
  forall prev t c, drop_underscores prev l = Some t -> In c t -> In c l.
Proof.
  induction l as [|a l IH]; intros prev t c Ht Hin.
  - cbn in Ht. destruct prev as [p|]; [destruct (is_underscore p) |];
      simplify_eq; contradiction.
  - cbn [drop_underscores] in Ht.
    assert (Hkeep : forall o, option_map (cons a) o = Some t ->
                              (forall t', o = Some t' -> In c t' -> In c l) ->
                              In c (a :: l)).
    { intros [t'|] [= <-] Hrec. destruct Hin as [->|Hin]; [by left | right; eauto]. }
    destruct (is_underscore a).
    + destruct prev as [p|]; [| discriminate].
      destruct (is_digit p); [| discriminate]. right. eauto.
    + destruct prev as [p|]; [| eauto].
      destruct (is_underscore p && negb (is_digit a)); [discriminate | eauto].
Qed.

Lemma mem_chars c s : mem c s = false -> ~ In c (list_ascii_of_string s).
Proof.
  induction s as [|d s IH]; [by intros _ [] |].
  cbn [mem list_ascii_of_string]. destruct (Ascii.eqb_spec c d) as [|Hne]; [discriminate |].
  intros Hs [->|Hin]; [done | by apply IH].
Qed.

Lemma take_digits_digits l :
  forall ds rest, take_digits l = (ds, rest) -> Forall (fun c => is_digit c = true) ds.
Proof.
  induction l as [|a l IH]; intros ds rest H.
  - injection H as <- <-. constructor.
  - cbn [take_digits] in H. destruct (is_digit a) eqn:Ha.
    + destruct (take_digits l) as [ds' rest'] eqn:Hl. injection H as <- <-.
      constructor; eauto.
    + injection H as <- <-. constructor.
Qed.

Lemma digits_value_nonnegative ds :
  Forall (fun c => is_digit c = true) ds -> (0 <= digits_value ds)%Z.
Proof.
  intros Hds. unfold digits_value.
  assert (Hgen : forall acc, (0 <= acc)%Z ->
            (0 <= fold_left (fun a c => 10 * a + digit_value c) ds acc)%Z).
  { induction Hds as [|c ds Hc _ IH]; intros acc Hacc; [exact Hacc |].
    cbn [fold_left]. apply IH.
    destruct (digit_is_plain c Hc) as (_ & _ & _ & _ & _ & _ & _ & _ & Hv). lia. }
  apply Hgen. lia.
Qed.

Lemma decimal_nonnegative body q : decimal body = Some q -> (0 <= q)%Q.
Proof.
  unfold decimal.
  destruct (take_digits body) as [ip s1] eqn:Hip.
  pose proof (take_digits_digits _ _ _ Hip) as Hipd.
  assert (Hfp : forall fp s2,
            match s1 with
            | [] => ([], [])
            | c :: s1' => if Ascii.eqb c "." then take_digits s1' else ([], s1)
            end = (fp, s2) ->
            Forall (fun c => is_digit c = true) fp).
  { intros fp s2 H. destruct s1 as [|c s1']; [injection H as <- <-; constructor |].
    destruct (Ascii.eqb c "."); [by eapply take_digits_digits |].
    injection H as <- <-. constructor. }
  destruct (match s1 with [] => _ | _ => _ end) as [fp s2] eqn:Hfps.
  specialize (Hfp fp s2 eq_refl).
  assert (Hall : Forall (fun c => is_digit c = true) (ip ++ fp))
    by (by apply Forall_app).
  destruct (ip ++ fp) as [|d ds] eqn:Hds; [discriminate |].
  destruct (take_exponent s2) as [e|]; [| discriminate].
  intros [= <-]. rewrite Qred_correct.
  apply Qmult_le_0_compat.
  - change 0%Q with (inject_Z 0). rewrite <- Zle_Qle.
    by apply digits_value_nonnegative.
  - apply Qpower_0_le. vm_compute. discriminate.
Qed.

(** [float] gives a negative number only for a text that holds a minus
    sign. *)
Lemma py_float_sign s v :
  mem "-" s = false -> py_float s = Some v -> is_negative v = false.
Proof.
  intros Hminus. unfold py_float.
  destruct (drop_underscores None (strip_space (list_ascii_of_string s)))
    as [t|] eqn:Hdrop; [| discriminate].
  assert (Hsign : take_sign t = (false, snd (take_sign t))).
  { destruct t as [|c t']; [reflexivity |]. cbn [take_sign].
    destruct (Ascii.eqb_spec c "-") as [->|_]; [| by destruct (Ascii.eqb c "+")].
    exfalso. apply (mem_chars _ _ Hminus).
    apply strip_space_sub. eapply drop_underscores_sub; [exact Hdrop | by left]. }
  rewrite Hsign.
  destruct (is_inf _); [by intros [= <-] |].
  destruct (is_nan _); [by intros [= <-] |].
  destruct (decimal _) as [q|] eqn:Hq; [| discriminate].
  intros [= <-]. cbn [is_negative].
  apply decimal_nonnegative in Hq. apply Qle_bool_iff in Hq. by rewrite Hq.
Qed.

(** X11.  The backoff after a retriable HTTP failure is negative only when
    the [Retry-After] header holds a minus sign: for a header without one,
    whatever else it holds, and a jitter bound and an attempt that are not
    negative, the delay is not negative. *)
Theorem hint_without_minus_is_not_negative (self : Base) (response : Response)
    (a : Z) (r : Q) (s : string) :
  headers_get response "Retry-After" = Some s ->
  mem "-" s = false ->
  (0 <= a)%Z ->
  (0 <= _jitter_max self)%Q ->
  (0 <= r < 1)%Q ->
  is_negative (backoff_for self a r (HTTPError response)) = false.
Proof.
  intros Hhint Hminus Ha Hj Hr.
  assert (Hfallback :
            is_negative (exponential a (uniform 0 (_jitter_max self) r)) = false).
  { destruct (Calls.exponential_within self a r Ha Hj Hr) as (q & -> & Hq0 & _).
    cbn [is_negative]. apply Qle_bool_iff in Hq0. by rewrite Hq0. }
  unfold backoff_for, honor_retry_after. rewrite Hhint.
  destruct (is_empty s); [exact Hfallback |].
  destruct (py_float s) as [v|] eqn:Hv; [| exact Hfallback].
  eapply py_float_sign; eauto.
Qed.

(** X11 on a header of half a second. *)
Lemma hint_without_minus_is_not_negative_witness :
  is_negative
    (backoff_for Samples.client 0 0
       (HTTPError (Samples.response_of 429 {[ "retry-after" := "0.5" ]} "" None)))
    = false.
Proof.
  apply (hint_without_minus_is_not_negative Samples.client
           (Samples.response_of 429 {[ "retry-after" := "0.5" ]} "" None) 0 0 "0.5").
  - reflexivity.
  - reflexivity.
  - vm_compute. discriminate.
  - vm_compute. discriminate.
  - split; vm_compute; [discriminate | reflexivity].
Defined.

End Hints.


(** ** Path segments *)

Module Paths.
Import PyStr UrlQuote PyFloat Lib Uberpy Observe Coverage.

Lemma chars_append s1 s2 : chars (s1 +:+ s2) = chars s1 ++ chars s2.
Proof.
  unfold chars. induction s1 as [|c s1 IH]; [reflexivity |].
  change (String c s1 +:+ s2) with (String c (s1 +:+ s2)).
  cbn [list_ascii_of_string app]. by rewrite IH.
Qed.

(** What [quote] writes for one character is made of characters that are
    never escaped and of the percent sign. *)
Lemma quoted_char_is_safe c :
  forallb (fun x => always_safe x || Ascii.eqb x "%")
    (chars (if always_safe c || mem c "" then String c EmptyString else percent c)) = true.
Proof. destruct c as [[] [] [] [] [] [] [] []]; reflexivity. Qed.

(** X12.  Whatever the segment, [quote] with no safe character gives a
    text made only of letters, digits, [_.-~] and the percent sign: no
    separator, no space, no byte above 127 is left in a path segment. *)
Theorem quoted_segment_is_url_safe (s : string) :
  forallb (fun x => always_safe x || Ascii.eqb x "%") (chars (quote s "")) = true.
Proof.
  induction s as [|c s IH]; [reflexivity |].
  cbn [quote]. rewrite chars_append, forallb_app, IH, quoted_char_is_safe. reflexivity.
Qed.

(** A text of characters that are never escaped is quoted as itself. *)
Lemma quote_plain s : forallb always_safe (chars s) = true -> quote s "" = s.
Proof.
  unfold chars. induction s as [|c s IH]; [reflexivity |].
  cbn [list_ascii_of_string forallb quote]. intros [Hc Hs]%andb_prop.
  rewrite Hc, (IH Hs). reflexivity.
Qed.

Lemma safe_is_no_separator c : always_safe c = true -> Ascii.eqb "/" c = false.
Proof. destruct c as [[] [] [] [] [] [] [] []]; intros H; try discriminate H; reflexivity. Qed.

Lemma plain_has_no_separator s : forallb always_safe (chars s) = true -> mem "/" s = false.
Proof.
  unfold chars. induction s as [|c s IH]; [reflexivity |].
  cbn [list_ascii_of_string forallb mem]. intros [Hc Hs]%andb_prop.
  by rewrite (safe_is_no_separator c Hc), (IH Hs).
Qed.

Lemma lstrip_plain s : mem "/" s = false -> lstrip "/" s = s.
Proof.
  destruct s as [|c s]; [reflexivity |]. cbn [mem lstrip].
  rewrite (Ascii.eqb_sym c "/"). by destruct (Ascii.eqb "/" c).
Qed.

Lemma mem_rev_app c s1 :
  forall s2, mem c (String.rev_app s1 s2) = mem c s1 || mem c s2.
Proof.
  induction s1 as [|d s1 IH]; intros s2; [reflexivity |].
  cbn [String.rev_app mem]. rewrite IH. cbn [mem].
  destruct (Ascii.eqb c d); [by rewrite orb_true_r | reflexivity].
Qed.

Lemma rev_app_rev_app s1 :
  forall s2 s3,
    String.rev_app (String.rev_app s1 s2) s3 = String.rev_app s2 (s1 +:+ s3).
Proof.
  induction s1 as [|d s1 IH]; intros s2 s3; [reflexivity |].
  cbn [String.rev_app]. rewrite IH. reflexivity.
Qed.

Lemma rev_rev s : String.rev (String.rev s) = s.
Proof.
  unfold String.rev. rewrite rev_app_rev_app. cbn [String.rev_app].
  apply UrlBuild.append_empty_r.
Qed.

(** A text without separator is not changed by [strip('/')]. *)
Lemma strip_plain s : mem "/" s = false -> strip "/" s = s.
Proof.
  intros Hs. unfold strip, rstrip. rewrite (lstrip_plain s Hs).
  rewrite lstrip_plain; [apply rev_rev |].
  unfold String.rev. rewrite mem_rev_app, Hs. reflexivity.
Qed.

Lemma digit_is_safe c : is_digit c = true -> always_safe c = true.
Proof. intros Hc. unfold always_safe. rewrite Hc. by rewrite orb_true_r. Qed.

(** The decimal text of an integer is not empty and holds only digits and
    the minus sign. *)
Lemma of_int_plain n :
  forallb always_safe (chars (of_int n)) = true /\ of_int n ≠ "".
Proof.
  unfold of_int. destruct n as [|p|p]; [by split | |];
    destruct (Hints.positive_numeral p) as (c & l & Htext & Hdigits & _);
    cbn [Z.to_int NilZero.string_of_int]; rewrite Htext;
    (split; [| discriminate]).
  all: unfold chars; cbn [list_ascii_of_string forallb];
    rewrite ?list_ascii_of_string_of_list_ascii;
    change (list_ascii_of_string (string_of_list_ascii (c :: l)))
      with (list_ascii_of_string (String c (string_of_list_ascii l)));
    cbn [list_ascii_of_string forallb];
    rewrite ?list_ascii_of_string_of_list_ascii.
  all: apply Forall_cons_1 in Hdigits as [Hc Hl];
    rewrite (digit_is_safe c Hc); cbn [andb];
    apply forallb_forall; intros x Hx;
    rewrite List.Forall_forall in Hl; apply digit_is_safe, Hl, Hx.
Qed.

(** X13.  A segment is sent as it is when nothing in it needs escaping: a
    text of letters, digits and [_.-~] goes into the URL unchanged, and an
    integer goes in as its decimal text, which is never empty. *)
Theorem plain_segments_are_sent_as_they_are (root : string) :
  (forall s, forallb always_safe (chars s) = true ->
             build_url root [UStr s] = rstrip "/" root +:+ "/" +:+ s) /\
  (forall n, build_url root [UInt n] = rstrip "/" root +:+ "/" +:+ of_int n /\
             of_int n ≠ "").
Proof.
  split.
  - intros s Hs. unfold build_url. cbn [map join str].
    by rewrite (strip_plain s (plain_has_no_separator s Hs)), (quote_plain s Hs).
  - intros n. destruct (of_int_plain n) as [Hs Hne]. split; [| exact Hne].
    unfold build_url. cbn [map join str].
    by rewrite (strip_plain _ (plain_has_no_separator _ Hs)), (quote_plain _ Hs).
Qed.

(** X13 on a delivery identifier. *)
Lemma plain_segments_are_sent_as_they_are_witness :
  build_url (_api_root Samples.client) [UStr "del_A1-b2"]
    = rstrip "/" (_api_root Samples.client) +:+ "/" +:+ "del_A1-b2".
Proof.
  apply (proj1 (plain_segments_are_sent_as_they_are (_api_root Samples.client))
           "del_A1-b2").
  reflexivity.
Defined.

(** X14.  When no segment is empty once its separators are stripped, the
    URL is the root without its trailing separators followed, for each
    segment in turn, by one separator and the quoted segment; the path so
    appended never has two separators side by side. *)
Theorem nonempty_segments_give_a_clean_path (root : string) (args : list URL) :
  Forall (fun arg => strip "/" (str arg) ≠ "") args ->
  build_url root args = rstrip "/" root +:+ path_suffix args /\
  double_separator (path_suffix args) = false.
Proof.
  intros Hargs. split.
  - apply UrlBuild.build_url_shape.
  - by apply UrlBuild.nonempty_segments_give_single_separators.
Qed.

(** X14 on a segment that holds a separator. *)
Lemma nonempty_segments_give_a_clean_path_witness :
  build_url "https://api.uber.com/v1/customers/c/" [UStr "/deliveries/"; UStr "a/b"]
    = rstrip "/" "https://api.uber.com/v1/customers/c/"
        +:+ path_suffix [UStr "/deliveries/"; UStr "a/b"] /\
  double_separator (path_suffix [UStr "/deliveries/"; UStr "a/b"]) = false.
Proof.
  apply (nonempty_segments_give_a_clean_path
           "https://api.uber.com/v1/customers/c/" [UStr "/deliveries/"; UStr "a/b"]).
  repeat constructor; discriminate.
Defined.

(** Reading back what [quote] wrote for one character gives the
    character. *)
Lemma unquote_quoted_char c rest :
  unquote ((if always_safe c || mem c "" then String c EmptyString else percent c)
             +:+ rest)
    = String c (unquote rest).
Proof. destruct c as [[] [] [] [] [] [] [] []]; reflexivity. Qed.

Lemma unquote_quote s : unquote (quote s "") = s.
Proof.
  induction s as [|c s IH]; [reflexivity |].
  cbn [quote]. by rewrite unquote_quoted_char, IH.
Qed.

(** X15.  [quote] loses nothing: two segments that are quoted to the same
    text are the same segment, so that distinct identifiers never reach
    the same path. *)
Theorem quote_is_injective (s t : string) :
  quote s "" = quote t "" -> s = t.
Proof.
  intros H. rewrite <- (unquote_quote s), <- (unquote_quote t). by rewrite H.
Qed.

(** X15 on two texts. *)
Lemma quote_is_injective_witness : "a/b" = "a/b".
Proof. apply (quote_is_injective "a/b" "a/b"). reflexivity. Defined.

End Paths.

(** ** The session of the sub-clients *)

Module Sharing.
Import PyStr UrlQuote PyFloat Lib Uberpy Observe Coverage.

(** X16.  [UberDirect.__init__] gives one and the same session to its own
    [Base] part and to the [Quotes] and [Deliveries] sub-clients: the
    session it was given when there is one, in which case it creates none,
    and otherwise a single new one.  The other arguments reach the
    sub-clients as the caller gave them. *)
Theorem sub_clients_share_one_session (kw : Kwargs) (created : nat) :
  let ud := fst (UberDirect__init__ kw created) in
  let created' := snd (UberDirect__init__ kw created) in
  kw_session (quotes ud) = Some (_session ud) /\
  kw_session (deliveries ud) = Some (_session ud) /\
  quotes ud = with_session kw (_session ud) /\
  deliveries ud = with_session kw (_session ud) /\
  (forall s, kw_session kw = Some s -> _session ud = s /\ created' = created) /\
  (kw_session kw = None -> _session ud = created /\ created' = S created).
Proof.
  unfold UberDirect__init__, session_or_new, new_session.
  destruct (kw_session kw) as [s|]; cbn; split_and!; try reflexivity;
    first [ by intros ? [= ->] | discriminate | auto ].
Qed.

End Sharing.


(** ** How long and how often a call waits *)

Module Budget.
Import PyStr UrlQuote PyFloat Lib Uberpy Observe Coverage.
Local Open Scope Q_scope.

Lemma time_slept_bound (bound : Q) evs :
  0 <= bound ->
  Forall (sleep_within bound) evs ->
  time_slept evs <= inject_Z (Z.of_nat (count is_sleep evs)) * bound.
Proof.
  intros Hb. induction 1 as [|ev evs Hev _ IH].
  - change (0 <= 0 * bound). lra.
  - rewrite Retry.count_cons.
    destruct ev as [rq res|r|[q| | |]]; cbn [time_slept is_sleep sleep_within] in *;
      try contradiction; try (cbn [Nat.add]; exact IH).
    change (1 + count is_sleep evs)%nat with (S (count is_sleep evs)).
    rewrite Nat2Z.inj_succ, <- Z.add_1_l, inject_Z_plus.
    change (inject_Z 1) with 1. nra.
Qed.

(** X17.  Without [Retry-After] headers, with a jitter bound that is not
    negative and draws in range, the time a call with [max_retries >= 0]
    spends sleeping is at most [(max_retries + 1) * (20 + jitter_max)]
    seconds. *)
Theorem time_slept_is_bounded self args body params method hdrs (w w' : World) out evs :
  (0 <= _max_retries self)%Z ->
  0 <= _jitter_max self ->
  draws_in_range w ->
  no_hints w ->
  _wrapper self args body params method hdrs w = Some (out, w') ->
  trace w' = trace w ++ evs ->
  time_slept evs <= inject_Z (_max_retries self + 1) * longest_backoff self.
Proof.
  intros Hmax Hj Hrange Hno Hrun Htr.
  destruct (Calls.call_facts self args body params method hdrs w w' out evs Hrun Htr)
    as (HR & Hans & Hdraws & _).
  assert (Hall : Forall (sleep_within (longest_backoff self)) evs).
  { eapply Calls.run_sleeps_bounded;
      eauto using Calls.hints_of_events, Calls.draws_of_events. lia. }
  assert (Hb : 0 <= longest_backoff self) by (unfold longest_backoff; lra).
  pose proof (time_slept_bound _ _ Hb Hall) as Hslept.
  pose proof (Calls.run_sleeps_le_requests self _ _ _ _ HR) as Hcount.
  pose proof (Retry.run_attempts self _ _ _ _ HR) as Hreq.
  assert (Hn : inject_Z (Z.of_nat (count is_sleep evs)) <= inject_Z (_max_retries self + 1))
    by (rewrite <- Zle_Qle; lia).
  pose proof (Qmult_le_compat_r _ _ _ Hn Hb). lra.
Qed.

(** X17 on the default client and a server that answers 500. *)
Lemma time_slept_is_bounded_witness :
  time_slept (trace (Samples.after_call Samples.client (Samples.always Samples.server_error)))
    <= inject_Z (_max_retries Samples.client + 1) * longest_backoff Samples.client.
Proof.
  apply (time_slept_is_bounded Samples.client [] None None GET None
           (Samples.world_of (Samples.always Samples.server_error))
           (Samples.after_call Samples.client (Samples.always Samples.server_error))
           (Raised (HTTPError Samples.server_error))).
  - vm_compute. discriminate.
  - vm_compute. discriminate.
  - apply Calls.sample_draws.
  - exact Calls.sample_no_hints.
  - vm_compute. reflexivity.
  - reflexivity.
Defined.

(** X18.  The zeros a caller gives to [__init__] are kept, not replaced by
    the defaults.  A client built with [max_retries = 0] makes exactly one
    attempt in every call; a client built with [jitter_max = 0] computes,
    for a failure without [Retry-After], the backoff [min(2^a, 20)]
    whatever the random draw. *)
Theorem explicit_zeros_are_kept customer_id access_token version timeout
    (max_retries : option Z) (jitter_max : option Q) codes :
  (forall args body params method hdrs w,
      exists out w' evs,
        _wrapper (__init__ customer_id access_token version timeout jitter_max
                    (Some 0%Z) codes) args body params method hdrs w = Some (out, w') /\
        trace w' = trace w ++ evs /\
        count is_request evs = 1%nat) /\
  (forall a r e,
      hint e = None ->
      exists q,
        backoff_for (__init__ customer_id access_token version timeout (Some 0)
                       max_retries codes) a r e = Finite q /\
        q == inject_Z (Z.min (2 ^ a) 20)).
Proof.
  split.
  - intros args body params method hdrs w.
    set (self := __init__ _ _ _ _ _ _ _).
    destruct (Retry.wrapper_refines_run self args body params method hdrs w)
      as (out & w' & evs & Hrun & Htr & _ & _ & HR).
    exists out, w', evs. split_and!; auto.
    pose proof (Retry.run_attempts self _ _ _ _ HR) as Hle.
    change (_max_retries self) with 0%Z in Hle.
    assert (1 <= count is_request evs)%nat.
    { inversion HR as [? ? Hgt| | | |]; subst;
        rewrite ?Retry.count_cons; cbn [is_request]; try lia.
      change (_max_retries self) with 0%Z in Hgt. lia. }
    lia.
  - intros a r e Hhint. rewrite Backoff.backoff_without_hint by assumption.
    eexists. split; [reflexivity |].
    cbn [_jitter_max __init__]. unfold uniform. ring.
Qed.

(** X19.  From one attempt to the next the base of the backoff doubles
    while it is below the cap and never decreases: it is [2^a] up to the
    fourth retry, twice the one before up to there, and 20 from the fifth
    on. *)
Theorem backoff_base_doubles_up_to_the_cap (a b : Z) (u : Q) :
  (0 <= a <= b)%Z ->
  exists qa qb qnext,
    exponential a u = Finite qa /\
    exponential b u = Finite qb /\
    exponential (a + 1) u = Finite qnext /\
    qa <= qb /\
    ((a <= 3)%Z -> qnext - u == 2 * (qa - u)) /\
    ((5 <= a)%Z -> qnext == qa).
Proof.
  intros [Ha Hab]. unfold exponential. eexists _, _, _.
  split; [reflexivity |]. split; [reflexivity |]. split; [reflexivity |].
  assert (Hmono : (Z.min (2 ^ a) 20 <= Z.min (2 ^ b) 20)%Z).
  { apply Z.min_le_compat_r. apply Z.pow_le_mono_r; lia. }
  split_and!.
  - rewrite Zle_Qle in Hmono. lra.
  - intros Hsmall.
    rewrite !Backoff.capped_small by lia.
    rewrite Z.pow_add_r by lia. change (2 ^ 1)%Z with 2%Z.
    rewrite inject_Z_mult. change (inject_Z 2) with 2. ring.
  - intros Hlarge. rewrite !Backoff.capped_large by lia. reflexivity.
Qed.

(** X19 on the second and the fourth attempt. *)
Lemma backoff_base_doubles_up_to_the_cap_witness :
  exists qa qb qnext,
    exponential 1 (1 # 4) = Finite qa /\
    exponential 3 (1 # 4) = Finite qb /\
    exponential (1 + 1) (1 # 4) = Finite qnext /\
    qa <= qb /\
    ((1 <= 3)%Z -> qnext - (1 # 4) == 2 * (qa - (1 # 4))) /\
    ((5 <= 1)%Z -> qnext == qa).
Proof.
  apply (backoff_base_doubles_up_to_the_cap 1 3 (1 # 4)).
  split; vm_compute; discriminate.
Defined.

End Budget.
